(** * nireports: the fMRI summary plot ([fMRIPlot])

    A shallow embedding of [nireports/reportlets/modality/func.py].

    The class [fMRIPlot] has two methods.  [__init__] normalises the
    optional tabular inputs into insertion-ordered dictionaries of per-signal
    records; [plot] lays the records out on a one-column grid and hands every
    row to one of three external renderers.  The renderers, seaborn's palette
    and the two file readers are not part of the module: calls to them are
    recorded as events, and what they return is a parameter of the
    development. *)

From stdpp Require Import gmap strings list.
From Stdlib Require Import QArith.

Set Warnings "-register-all,-clear-no-such-hyp".
Close Scope Q_scope.
Local Open Scope string_scope.
Local Open Scope list_scope.
Local Open Scope nat_scope.

(** ** Python values *)

(** The Python objects stored in a signal record.  [num] stands for the
    numeric scalars (the floats pandas and numpy hand over): the module never
    computes with them, it only moves them around. *)
Inductive pyval (num : Type) : Type :=
| PyNone
| PyStr (s : string)
| PyNum (x : num)
| PyList (l : list (pyval num)).

Global Arguments PyNone {num}.
Global Arguments PyStr {num} s.
Global Arguments PyNum {num} x.
Global Arguments PyList {num} l.

(** Exceptions the module can raise or let through. *)
Inductive exn : Type :=
| KeyError (key : string)
| NameError (var : string)
| IndexError
| ValueError
| OSError (path : string).

Inductive result (A : Type) : Type :=
| Ok (a : A)
| Raise (e : exn).

Global Arguments Ok {A} a.
Global Arguments Raise {A} e.

Global Instance result_ret : MRet result := λ A a, Ok a.
Global Instance result_bind : MBind result := λ A B f m,
  match m with Ok a => f a | Raise e => Raise e end.

(** ** Insertion-ordered dictionaries with string keys

    A Python [dict] keeps its keys in insertion order; assigning to a key
    that is already present replaces the value and keeps the position. *)

Module PyDict.

Definition t (V : Type) : Type := list (string * V).

(** [d[k] = v] *)
Fixpoint setitem {V} (d : t V) (k : string) (v : V) : t V :=
  match d with
  | [] => [(k, v)]
  | (k', v') :: d' =>
      if decide (k' = k) then (k', v) :: d' else (k', v') :: setitem d' k v
  end.

(** [d.get(k)], with [None] for the default *)
Fixpoint get {V} (d : t V) (k : string) : option V :=
  match d with
  | [] => None
  | (k', v) :: d' => if decide (k' = k) then Some v else get d' k
  end.

(** the dictionary without the key [k] *)
Fixpoint remove {V} (d : t V) (k : string) : t V :=
  match d with
  | [] => []
  | (k', v) :: d' => if decide (k' = k) then d' else (k', v) :: remove d' k
  end.

(** [d.pop(k)]: the value, and the dictionary as it is left *)
Definition pop {V} (d : t V) (k : string) : result (V * t V) :=
  match get d k with
  | Some v => Ok (v, remove d k)
  | None => Raise (KeyError k)
  end.

Definition keys {V} (d : t V) : list string := d.*1.

(** truth value of a dictionary used as a condition *)
Definition truthy {V} (d : t V) : bool :=
  match d with [] => false | _ :: _ => true end.

End PyDict.

(** ** numpy arrays and pandas tables *)

Section Arrays.

Context {num : Type}.

(** A C-contiguous [ndarray]: its shape and its elements in row-major
    order. *)
Record ndarray : Type := mk_ndarray {
  shape : list nat;
  flat : list num
}.

(** [a.squeeze()] drops every axis of length one. *)
Definition squeeze (a : ndarray) : ndarray :=
  {| shape := filter (λ n, n ≠ 1) (shape a); flat := flat a |}.

(** [n] consecutive blocks of [k] elements *)
Fixpoint chunks (n k : nat) (l : list num) : list (list num) :=
  match n with
  | O => []
  | S n' => take k l :: chunks n' k (drop k l)
  end.

Definition product (l : list nat) : nat := foldr Nat.mul 1 l.

Fixpoint tolist_aux (sh : list nat) (l : list num) : pyval num :=
  match sh with
  | [] => match l with x :: _ => PyNum x | [] => PyNone end
  | n :: sh' => PyList (tolist_aux sh' <$> chunks n (product sh') l)
  end.

(** [a.tolist()]: nested lists, one level per axis; a zero-dimensional
    array gives the bare scalar. *)
Definition tolist (a : ndarray) : pyval num := tolist_aux (shape a) (flat a).

(** A [DataFrame]: the length of its index and its labelled columns, in
    order.  Column labels may repeat. *)
Record DataFrame : Type := mk_DataFrame {
  index_len : nat;
  cols : list (string * list num)
}.

(** every column has one cell per index entry *)
Definition wf_frame (df : DataFrame) : Prop :=
  Forall (λ c, length c.2 = index_len df) (cols df).

(** [df.columns] *)
Definition columns (df : DataFrame) : list string := (cols df).*1.

(** [df[[name]]]: the sub-table of the columns labelled [name] *)
Definition getitem_cols (df : DataFrame) (name : string) : DataFrame :=
  {| index_len := index_len df;
     cols := filter (λ c, c.1 = name) (cols df) |}.

Definition row (df : DataFrame) (i : nat) : list num :=
  omap (λ c, c.2 !! i) (cols df).

(** [df.values]: a two-dimensional array, rows by columns *)
Definition values (df : DataFrame) : ndarray :=
  {| shape := [index_len df; length (cols df)];
     flat := concat (row df <$> seq 0 (index_len df)) |}.

End Arrays.

Global Arguments ndarray : clear implicits.
Global Arguments DataFrame : clear implicits.

(** ** matplotlib's grid *)

Record GridSpec : Type := mk_GridSpec {
  nrows : nat;
  ncols : nat;
  wspace : Q;
  hspace : Q;
  height_ratios : list nat
}.

(** [GridSpec(nrows, ncols, wspace=, hspace=, height_ratios=)]: one ratio
    per row is required. *)
Definition GridSpec_new (nrows ncols : nat) (wspace hspace : Q)
    (height_ratios : list nat) : result GridSpec :=
  if decide (length height_ratios = nrows ∧ 0 < nrows ∧ 0 < ncols)
  then Ok (mk_GridSpec nrows ncols wspace hspace height_ratios)
  else Raise ValueError.

(** A cell of a grid: [num1] counts cells row by row. *)
Record SubplotSpec : Type := mk_SubplotSpec {
  gridspec : GridSpec;
  num1 : nat
}.

(** [grid[k]] for an integer [k]; a negative [k] counts from the end. *)
Definition grid_getitem (grid : GridSpec) (k : Z) : result SubplotSpec :=
  let size := Z.of_nat (nrows grid * ncols grid) in
  let k' := if decide (k < 0)%Z then (k + size)%Z else k in
  if decide (0 ≤ k' < size)%Z
  then Ok (mk_SubplotSpec grid (Z.to_nat k'))
  else Raise IndexError.

(** The figure [plot] draws on: the one the caller passes, or pyplot's
    current one. *)
Inductive Figure : Type :=
| CurrentFigure
| UserFigure (id : nat).

(** ** The class [fMRIPlot] *)

Section fMRIPlot.

(** [num]: numeric scalars; [color]: an entry of a seaborn palette; [img] and
    [seg]: the imaging matrix and its segment labelling, which only the carpet
    renderer looks into. *)
Context {num color img seg : Type}.

(** [pd.read_csv(conf_file, sep=r"[\t\s]+", usecols=usecols, index_col=False)] *)
Variable read_csv : string → option (list string) → result (DataFrame num).

(** [np.loadtxt(sp_file)] *)
Variable loadtxt : string → result (ndarray num).

(** [seaborn.color_palette(name, n_colors)] *)
Variable color_palette : string → nat → list color.

(** A signal record: a dictionary with the keys ["values"], ["units"] and,
    for confounds, ["cutoff"]. *)
Definition record : Type := PyDict.t (pyval num).

(** An entry of [self.spikes]: the tuple [(array, None, False)]. *)
Definition spike : Type := ndarray num * option string * bool.

(** The attributes listed in [__slots__]. *)
Record fMRIPlot : Type := mk_fMRIPlot {
  timeseries : img;
  segments : seg;
  tr : option num;
  confounds : PyDict.t record;
  physio : PyDict.t record;
  physio_confounds : PyDict.t record;
  spikes : list spike;
  nskip : Z;
  sort_carpet : bool;
  paired_carpet : bool
}.

(** The parameters of [__init__]; an omitted optional parameter is [None]. *)
Record init_args : Type := mk_init_args {
  arg_timeseries : img;
  arg_segments : seg;
  arg_confounds : option (DataFrame num);
  arg_conf_file : option string;
  arg_physio : option (DataFrame num);
  arg_physio_file : option string;
  arg_physio_confounds : option (DataFrame num);
  arg_physio_conf_file : option string;
  arg_tr : option num;
  arg_usecols : option (list string);
  arg_units : option (gmap string string);
  arg_vlines : option (gmap string num);
  arg_spikes_files : option (list string);
  arg_nskip : Z;
  arg_sort_carpet : bool;
  arg_paired_carpet : bool
}.

(** [units.get(name)] and [vlines.get(name)] *)
Definition units_get (units : gmap string string) (name : string) : pyval num :=
  match units !! name with Some u => PyStr u | None => PyNone end.

Definition vlines_get (vlines : gmap string num) (name : string) : pyval num :=
  match vlines !! name with Some c => PyNum c | None => PyNone end.

(** [df[[name]].values.squeeze().tolist()] *)
Definition column_values (df : DataFrame num) (name : string) : pyval num :=
  tolist (squeeze (values (getitem_cols df name))).

(** The record built for a confound column (lines 87-91). *)
Definition confound_record (units : gmap string string)
    (vlines : gmap string num) (df : DataFrame num) (name : string) : record :=
  [("values", column_values df name);
   ("units", units_get units name);
   ("cutoff", vlines_get vlines name)].

(** The record built for a physio or a physio-confound column (lines 101-104
    and 113-116). *)
Definition physio_record (units : gmap string string)
    (df : DataFrame num) (name : string) : record :=
  [("values", column_values df name);
   ("units", units_get units name)].

(** [for name in df.columns: d[name] = mk(name)], starting from [d = {}];
    nothing happens when the table is [None]. *)
Definition fill (mk : DataFrame num → string → record)
    (table : option (DataFrame num)) : PyDict.t record :=
  match table with
  | None => []
  | Some df => foldl (λ d name, PyDict.setitem d name (mk df name)) [] (columns df)
  end.

(** truth value of an optional string or list *)
Definition truthy_str (s : option string) : bool :=
  match s with Some s => bool_decide (s ≠ "") | None => false end.

(** Lines 82-83: the confound table, read from [conf_file] when none is
    passed. *)
Definition resolve_confounds (args : init_args) : result (option (DataFrame num)) :=
  match arg_confounds args with
  | None =>
      if truthy_str (arg_conf_file args)
      then df ← read_csv (default "" (arg_conf_file args)) (arg_usecols args);
           mret (Some df)
      else mret None
  | Some df => mret (Some df)
  end.

(** Lines 118-121: [self.spikes.append((np.loadtxt(sp_file), None, False))]
    for every file. *)
Fixpoint load_spikes (spikes_files : list string) (acc : list spike)
    : result (list spike) :=
  match spikes_files with
  | [] => mret acc
  | sp_file :: rest =>
      a ← loadtxt sp_file;
      load_spikes rest (acc ++ [(a, None, false)])
  end.

Definition __init__ (args : init_args) : result fMRIPlot :=
  let units := default ∅ (arg_units args) in
  let vlines := default ∅ (arg_vlines args) in
  table ← resolve_confounds args;
  let confounds := fill (confound_record units vlines) table in
  let physio := fill (physio_record units) (arg_physio args) in
  let physio_confounds := fill (physio_record units) (arg_physio_confounds args) in
  spikes ← load_spikes (default [] (arg_spikes_files args)) [];
  mret {| timeseries := arg_timeseries args;
          segments := arg_segments args;
          tr := arg_tr args;
          confounds := confounds;
          physio := physio;
          physio_confounds := physio_confounds;
          spikes := spikes;
          nskip := arg_nskip args;
          sort_carpet := arg_sort_carpet args;
          paired_carpet := arg_paired_carpet args |}.

(** *** [plot]

    The calls [plot] makes to seaborn, pyplot and the three renderers of
    [nireports.reportlets.nuisance], with their arguments. *)
Inductive event : Type :=
| sns_set_style (style : string)
| sns_set_context (context : string) (font_scale : Q)
| plt_gcf
| spikesplot (tsz : ndarray num) (title : option string)
    (outer_gs : SubplotSpec) (tr : option num) (zscored : bool)
| sns_color_palette (name : string) (n_colors : nat)
| confoundplot (tseries : pyval num) (gs_ts : SubplotSpec) (tr : option num)
    (color : color) (name : string) (kwargs : record)
| plot_carpet (data : img) (segments : seg) (subplot : SubplotSpec)
    (tr : option num) (sort_rows : bool) (drop_trs : Z) (cmap : option string).

(** [plot] runs on the object, which it mutates, and leaves a log of calls.
    An exception stops it and keeps the state reached. *)
Record state : Type := mk_state {
  self : fMRIPlot;
  calls : list event
}.

Definition M (A : Type) : Type := state → result A * state.

#[local] Instance M_ret : MRet M := λ A a st, (Ok a, st).
#[local] Instance M_bind : MBind M := λ A B f m st,
  match m st with
  | (Ok a, st') => f a st'
  | (Raise e, st') => (Raise e, st')
  end.

Definition lift {A} (r : result A) : M A := λ st, (r, st).
Definition call (e : event) : M unit :=
  λ st, (Ok (), {| self := self st; calls := calls st ++ [e] |}).
Definition get_self : M fMRIPlot := λ st, (Ok (self st), st).
Definition modify_self (f : fMRIPlot → fMRIPlot) : M unit :=
  λ st, (Ok (), {| self := f (self st); calls := calls st |}).

(** The three dictionaries of signal records. *)
Inductive category : Type := Confounds | Physio | PhysioConfounds.

Definition signals (cat : category) (s : fMRIPlot) : PyDict.t record :=
  match cat with
  | Confounds => confounds s
  | Physio => physio s
  | PhysioConfounds => physio_confounds s
  end.

Definition set_signals (cat : category) (d : PyDict.t record) (s : fMRIPlot)
    : fMRIPlot :=
  {| timeseries := timeseries s;
     segments := segments s;
     tr := tr s;
     confounds := match cat with Confounds => d | _ => confounds s end;
     physio := match cat with Physio => d | _ => physio s end;
     physio_confounds :=
       match cat with PhysioConfounds => d | _ => physio_confounds s end;
     spikes := spikes s;
     nskip := nskip s;
     sort_carpet := sort_carpet s;
     paired_carpet := paired_carpet s |}.

(** The [tr=] argument of [confoundplot]: [self.tr], but [None] for physio
    (line 161). *)
Definition trace_tr (cat : category) (s : fMRIPlot) : option num :=
  match cat with
  | Confounds | PhysioConfounds => tr s
  | Physio => None
  end.

(** [palette[k]]: the local [palette] is bound only if line 150 ran. *)
Definition palette_getitem (palette : option (list color)) (k : nat)
    : result color :=
  match palette with
  | None => Raise (NameError "palette")
  | Some p =>
      match p !! k with
      | Some c => Ok c
      | None => Raise IndexError
      end
  end.

(** Lines 143-145. *)
Fixpoint spikes_loop (grid : GridSpec) (items : list spike) (grid_id : Z) : M Z :=
  match items with
  | [] => mret grid_id
  | (tsz, name, iszs) :: rest =>
      gs ← lift (grid_getitem grid grid_id);
      s ← get_self;
      call (spikesplot tsz name gs (tr s) iszs);;
      spikes_loop grid rest (grid_id + 1)%Z
  end.

(** The loops of lines 152-155, 158-162 and 165-168, which differ in the
    dictionary they walk, in [tr=] and in the offset into the palette.
    [kwargs] is the record held by the dictionary, not a copy: what [pop]
    takes out of it is gone from the object. *)
Fixpoint signals_loop (cat : category) (grid : GridSpec)
    (palette : option (list color)) (offset : nat)
    (i : nat) (items : list (string * record)) (grid_id : Z) : M Z :=
  match items with
  | [] => mret grid_id
  | (name, kwargs) :: rest =>
      popped ← lift (PyDict.pop kwargs "values");
      let '(tseries, kwargs) := popped in
      modify_self (λ s, set_signals cat (<[i := (name, kwargs)]> (signals cat s)) s);;
      gs ← lift (grid_getitem grid grid_id);
      s ← get_self;
      c ← lift (palette_getitem palette (offset + i));
      call (confoundplot tseries gs (trace_tr cat s) c name kwargs);;
      signals_loop cat grid palette offset (S i) rest (grid_id + 1)%Z
  end.

Definition plot_body (figure : option Figure) : M Figure :=
  call (sns_set_style "whitegrid");;
  call (sns_set_context "paper" (8 # 10));;
  figure ← match figure with
           | None => call plt_gcf;; mret CurrentFigure
           | Some f => mret f
           end;
  s ← get_self;
  let nconfounds := length (confounds s) in
  let nspikes := length (spikes s) in
  let nphysio := length (physio s) in
  let nphysio_confounds := length (physio_confounds s) in
  let nrows := 1 + nconfounds + nspikes + nphysio + nphysio_confounds in
  grid ← lift (GridSpec_new nrows 1 0 (5 # 100) (replicate (nrows - 1) 1 ++ [5]));
  grid_id ← spikes_loop grid (spikes s) 0;
  palette ←
    (if PyDict.truthy (confounds s) || PyDict.truthy (physio s)
        || PyDict.truthy (physio_confounds s)
     then
       let n := nconfounds + nphysio + nphysio_confounds in
       call (sns_color_palette "husl" n);;
       mret (Some (color_palette "husl" n))
     else mret None);
  s ← get_self;
  grid_id ← signals_loop Confounds grid palette 0 0 (confounds s) grid_id;
  s ← get_self;
  grid_id ← signals_loop Physio grid palette nconfounds 0 (physio s) grid_id;
  s ← get_self;
  grid_id ← signals_loop PhysioConfounds grid palette (nconfounds + nphysio) 0
              (physio_confounds s) grid_id;
  subplot ← lift (grid_getitem grid (-1));
  s ← get_self;
  call (plot_carpet (timeseries s) (segments s) subplot (tr s) (sort_carpet s)
          (nskip s) (if paired_carpet s then Some "paired" else None));;
  mret figure.

(** [obj.plot(figure)]: what it returns or raises, the object afterwards and
    the calls made. *)
Definition plot (obj : fMRIPlot) (figure : option Figure)
    : result Figure * state :=
  plot_body figure {| self := obj; calls := [] |}.

End fMRIPlot.

(** ** Vocabulary of the statements *)

Section Vocabulary.
Context {num color img seg : Type}.

(** The column labels of an optional table. *)
Definition table_columns (table : option (DataFrame num)) : list string :=
  match table with Some df => columns df | None => [] end.

(** [r.get("values")], [r.get("units")], [r.get("cutoff")] *)
Definition record_get (r : @record num) (key : string) : pyval num :=
  default PyNone (PyDict.get r key).

Definition has_values (r : @record num) : Prop :=
  is_Some (PyDict.get r "values").

(** The record once [pop("values")] has run on it. *)
Definition popped (r : @record num) : @record num := PyDict.remove r "values".

(** Every record of the object still has its ["values"]. *)
Definition fresh (obj : @fMRIPlot num img seg) : Prop :=
  ∀ cat e, e ∈ signals cat obj → has_values e.2.

(** What a row of the figure shows. *)
Inductive panel : Type :=
| SpikePanel (tsz : ndarray num)
| TracePanel (name : string)
| CarpetPanel.

(** The grid cell a renderer was given. *)
Definition event_cell (e : @event num color img seg) : option SubplotSpec :=
  match e with
  | spikesplot _ _ gs _ _ => Some gs
  | confoundplot _ gs _ _ _ _ => Some gs
  | plot_carpet _ _ gs _ _ _ _ => Some gs
  | _ => None
  end.

(** The grid row a renderer drew on, and what it drew there. *)
Definition event_panel (e : @event num color img seg) : option (nat * panel) :=
  match e with
  | spikesplot tsz _ gs _ _ => Some (num1 gs, SpikePanel tsz)
  | confoundplot _ gs _ _ name _ => Some (num1 gs, TracePanel name)
  | plot_carpet _ _ gs _ _ _ _ => Some (num1 gs, CarpetPanel)
  | _ => None
  end.

(** Name and colour of a trace. *)
Definition event_trace (e : @event num color img seg) : option (string * color) :=
  match e with
  | confoundplot _ _ _ c name _ => Some (name, c)
  | _ => None
  end.

(** Name and [tr=] of a trace. *)
Definition event_trace_tr (e : @event num color img seg)
    : option (string * option num) :=
  match e with
  | confoundplot _ _ tr _ name _ => Some (name, tr)
  | _ => None
  end.

(** Name and keyword arguments ([**kwargs]) of a trace. *)
Definition event_kwargs (e : @event num color img seg)
    : option (string * @record num) :=
  match e with
  | confoundplot _ _ _ _ name kwargs => Some (name, kwargs)
  | _ => None
  end.

(** Array, title and z-scored flag of a spike panel. *)
Definition event_spike (e : @event num color img seg) : option (@spike num) :=
  match e with
  | spikesplot tsz title _ _ zscored => Some (tsz, title, zscored)
  | _ => None
  end.

(** The size seaborn was asked a palette of. *)
Definition event_palette (e : @event num color img seg) : option nat :=
  match e with
  | sns_color_palette _ n => Some n
  | _ => None
  end.

(** The calls the three trace loops make when nothing fails: one per record
    and colour, on consecutive rows from [r] on. *)
Fixpoint trace_calls (grid : GridSpec) (tr_arg : option num) (r : nat)
    (items : list (string * @record num)) (cs : list color)
    : list (@event num color img seg) :=
  match items, cs with
  | (name, kwargs) :: items, c :: cs =>
      confoundplot (record_get kwargs "values") (mk_SubplotSpec grid r) tr_arg
        c name (popped kwargs)
      :: trace_calls grid tr_arg (S r) items cs
  | _, _ => []
  end.

(** Likewise for the loop over the spikes. *)
Fixpoint spike_calls (grid : GridSpec) (tr_arg : option num) (r : nat)
    (items : list (@spike num)) : list (@event num color img seg) :=
  match items with
  | [] => []
  | (tsz, name, iszs) :: items =>
      spikesplot tsz name (mk_SubplotSpec grid r) tr_arg iszs
      :: spike_calls grid tr_arg (S r) items
  end.

(** The number of palette colours [plot] asks for (line 150). *)
Definition nsignals (obj : @fMRIPlot num img seg) : nat :=
  length (confounds obj) + length (physio obj) + length (physio_confounds obj).

(** The grid [plot] builds (lines 133-140). *)
Definition grid_of (obj : @fMRIPlot num img seg) : GridSpec :=
  let nrows := 1 + length (confounds obj) + length (spikes obj)
               + length (physio obj) + length (physio_confounds obj) in
  mk_GridSpec nrows 1 0 (5 # 100) (replicate (nrows - 1) 1 ++ [5]).

(** A dictionary of records after every record lost its ["values"]. *)
Definition strip (d : PyDict.t (@record num)) : PyDict.t (@record num) :=
  prod_map id popped <$> d.

Definition stripped (obj : @fMRIPlot num img seg) : @fMRIPlot num img seg :=
  {| timeseries := timeseries obj;
     segments := segments obj;
     tr := tr obj;
     confounds := strip (confounds obj);
     physio := strip (physio obj);
     physio_confounds := strip (physio_confounds obj);
     spikes := spikes obj;
     nskip := nskip obj;
     sort_carpet := sort_carpet obj;
     paired_carpet := paired_carpet obj |}.

(** The calls of a run of [plot] in which nothing fails, given the palette
    seaborn returns. *)
Definition plot_calls (pal : list color) (obj : @fMRIPlot num img seg)
    (figure : option Figure) : list (@event num color img seg) :=
  let C := length (confounds obj) in
  let S := length (spikes obj) in
  let P := length (physio obj) in
  let grid := grid_of obj in
  [sns_set_style "whitegrid"; sns_set_context "paper" (8 # 10)]
  ++ match figure with None => [plt_gcf] | Some _ => [] end
  ++ spike_calls grid (tr obj) 0 (spikes obj)
  ++ (if bool_decide (0 < nsignals obj)
      then [sns_color_palette "husl" (nsignals obj)] else [])
  ++ trace_calls grid (tr obj) S (confounds obj) (take C pal)
  ++ trace_calls grid None (S + C) (physio obj) (take P (drop C pal))
  ++ trace_calls grid (tr obj) (S + C + P) (physio_confounds obj)
       (drop (C + P) pal)
  ++ [plot_carpet (timeseries obj) (segments obj)
        (mk_SubplotSpec grid (nrows grid - 1)) (tr obj) (sort_carpet obj)
        (nskip obj) (if paired_carpet obj then Some "paired" else None)].

(** Name, time series and keyword arguments of a trace. *)
Definition event_trace_args (e : @event num color img seg)
    : option (string * pyval num * @record num) :=
  match e with
  | confoundplot tseries _ _ _ name kwargs => Some (name, tseries, kwargs)
  | _ => None
  end.

(** The [tr=] a spike panel was drawn with. *)
Definition event_spike_tr (e : @event num color img seg) : option (option num) :=
  match e with
  | spikesplot _ _ _ tr _ => Some tr
  | _ => None
  end.

(** The calls of [plt.gcf()]. *)
Definition event_gcf (e : @event num color img seg) : option unit :=
  match e with plt_gcf => Some () | _ => None end.

(** The arguments of [__init__] with the confound table passed directly. *)
Definition with_confounds (df : DataFrame num) (args : @init_args num img seg)
    : @init_args num img seg :=
  {| arg_timeseries := arg_timeseries args;
     arg_segments := arg_segments args;
     arg_confounds := Some df;
     arg_conf_file := arg_conf_file args;
     arg_physio := arg_physio args;
     arg_physio_file := arg_physio_file args;
     arg_physio_confounds := arg_physio_confounds args;
     arg_physio_conf_file := arg_physio_conf_file args;
     arg_tr := arg_tr args;
     arg_usecols := arg_usecols args;
     arg_units := arg_units args;
     arg_vlines := arg_vlines args;
     arg_spikes_files := arg_spikes_files args;
     arg_nskip := arg_nskip args;
     arg_sort_carpet := arg_sort_carpet args;
     arg_paired_carpet := arg_paired_carpet args |}.

(** The values, units and cutoff the renderer gets for a column of a
    table. *)
Definition confound_trace (units : gmap string string)
    (vlines : gmap string num) (df : DataFrame num) (name : string)
    : string * pyval num * @record num :=
  (name, column_values df name,
   [("units", units_get units name); ("cutoff", vlines_get vlines name)]).

Definition physio_trace (units : gmap string string)
    (df : DataFrame num) (name : string)
    : string * pyval num * @record num :=
  (name, column_values df name, [("units", units_get units name)]).

(** The traces of an optional table, one per entry of the dictionary built
    from it. *)
Definition table_traces
    (mk : DataFrame num → string → string * pyval num * @record num)
    (table : option (DataFrame num)) (d : PyDict.t (@record num))
    : list (string * pyval num * @record num) :=
  match table with
  | Some df => mk df <$> PyDict.keys d
  | None => []
  end.

(** The labels of a table as a dictionary keeps them: each label once, at
    the place of its first occurrence. *)
Definition first_occurrences (labels : list string) : list string :=
  foldl (λ seen label, if decide (label ∈ seen) then seen else seen ++ [label])
    [] labels.

End Vocabulary.

(** ** A small run, used to try the statements out *)

Module Demo.

(** A palette of [n] colours, each named by its position. *)
Definition husl (name : string) (n : nat) : list nat := seq 0 n.

Definition read_csv (path : string) (usecols : option (list string))
    : result (DataFrame Z) :=
  Raise (OSError path).

Definition loadtxt (path : string) : result (ndarray Z) :=
  if decide (path = "spikes.txt")
  then Ok {| shape := [2; 2]; flat := [1; 2; 3; 4]%Z |}
  else Raise (OSError path).

(** Two confounds, one physio trace, one physio confound and one spike file;
    ["FD"] has units and a cutoff, and a cutoff is supplied for ["HR_reg"]. *)
Definition args : @init_args Z unit unit :=
  {| arg_timeseries := ();
     arg_segments := ();
     arg_confounds :=
       Some {| index_len := 2;
               cols := [("FD", [1; 2]%Z); ("DVARS", [3; 4]%Z)] |};
     arg_conf_file := None;
     arg_physio := Some {| index_len := 3; cols := [("resp", [7; 8; 9]%Z)] |};
     arg_physio_file := None;
     arg_physio_confounds :=
       Some {| index_len := 2; cols := [("HR_reg", [5; 6]%Z)] |};
     arg_physio_conf_file := None;
     arg_tr := Some 2%Z;
     arg_usecols := None;
     arg_units := Some {[ "FD" := "mm" ]};
     arg_vlines := Some {[ "FD" := 5%Z; "HR_reg" := 1%Z ]};
     arg_spikes_files := Some ["spikes.txt"];
     arg_nskip := 4;
     arg_sort_carpet := true;
     arg_paired_carpet := false |}.

(** The object [__init__] builds from [args]. *)
Definition obj : @fMRIPlot Z unit unit :=
  Eval vm_compute in
  match __init__ read_csv loadtxt args with
  | Ok o => o
  | Raise _ => mk_fMRIPlot () () None [] [] [] [] 0 true false
  end.

(** A table with a single timepoint. *)
Definition one_row_args : @init_args Z unit unit :=
  {| arg_timeseries := ();
     arg_segments := ();
     arg_confounds := Some {| index_len := 1; cols := [("FD", [5%Z])] |};
     arg_conf_file := None;
     arg_physio := None;
     arg_physio_file := None;
     arg_physio_confounds := None;
     arg_physio_conf_file := None;
     arg_tr := None;
     arg_usecols := None;
     arg_units := None;
     arg_vlines := None;
     arg_spikes_files := None;
     arg_nskip := 0;
     arg_sort_carpet := true;
     arg_paired_carpet := false |}.

(** A reader that knows one confound file. *)
Definition read_table (path : string) (usecols : option (list string))
    : result (DataFrame Z) :=
  if decide (path = "confounds.tsv")
  then Ok {| index_len := 2; cols := [("FD", [1; 2]%Z); ("DVARS", [3; 4]%Z)] |}
  else Raise (OSError path).

(** The confounds come from a file; the second spike file is missing. *)
Definition file_args : @init_args Z unit unit :=
  {| arg_timeseries := ();
     arg_segments := ();
     arg_confounds := None;
     arg_conf_file := Some "confounds.tsv";
     arg_physio := None;
     arg_physio_file := Some "physio.tsv";
     arg_physio_confounds := None;
     arg_physio_conf_file := None;
     arg_tr := Some 2%Z;
     arg_usecols := None;
     arg_units := Some {[ "FD" := "mm" ]};
     arg_vlines := None;
     arg_spikes_files := Some ["spikes.txt"; "missing.txt"];
     arg_nskip := 0;
     arg_sort_carpet := true;
     arg_paired_carpet := true |}.

(** Nothing but the imaging data. *)
Definition bare_args : @init_args Z unit unit :=
  {| arg_timeseries := ();
     arg_segments := ();
     arg_confounds := None;
     arg_conf_file := None;
     arg_physio := None;
     arg_physio_file := Some "physio.tsv";
     arg_physio_confounds := None;
     arg_physio_conf_file := None;
     arg_tr := Some 2%Z;
     arg_usecols := None;
     arg_units := None;
     arg_vlines := None;
     arg_spikes_files := None;
     arg_nskip := 4;
     arg_sort_carpet := true;
     arg_paired_carpet := true |}.

(** A confound table with the label ["a"] on both of its columns. *)
Definition dup_args : @init_args Z unit unit :=
  {| arg_timeseries := ();
     arg_segments := ();
     arg_confounds :=
       Some {| index_len := 2; cols := [("a", [1; 2]%Z); ("a", [3; 4]%Z)] |};
     arg_conf_file := None;
     arg_physio := None;
     arg_physio_file := None;
     arg_physio_confounds := None;
     arg_physio_conf_file := None;
     arg_tr := None;
     arg_usecols := None;
     arg_units := None;
     arg_vlines := None;
     arg_spikes_files := None;
     arg_nskip := 0;
     arg_sort_carpet := true;
     arg_paired_carpet := false |}.

End Demo.

(** * Properties *)

(** ** Dictionaries *)

Module PyDictFacts.
Import PyDict.

Section Facts.
Context {V : Type}.
Implicit Types (d : PyDict.t V) (k : string) (v : V).

Lemma get_setitem d k v k' :
  get (setitem d k v) k' = if decide (k = k') then Some v else get d k'.
Proof.
  induction d as [|[k0 v0] d IH]; simpl.
  - by repeat case_decide.
  - destruct (decide (k0 = k)) as [->|Hne]; simpl.
    + by repeat case_decide.
    + rewrite IH. repeat case_decide; congruence.
Qed.

Lemma get_None_keys d k : get d k = None ↔ k ∉ keys d.
Proof.
  unfold keys. induction d as [|[k0 v0] d IH]; simpl.
  - split; [intros _; apply not_elem_of_nil | done].
  - rewrite not_elem_of_cons. case_decide; subst.
    + split; [done | intros [? _]; done].
    + rewrite IH. split; [by intros ? | by intros [_ ?]].
Qed.

Lemma setitem_fresh d k v : k ∉ keys d → setitem d k v = d ++ [(k, v)].
Proof.
  unfold keys. induction d as [|[k0 v0] d IH]; simpl; [done|].
  rewrite not_elem_of_cons. intros [Hne Hnin].
  case_decide; [congruence|]. by rewrite IH.
Qed.

Lemma length_setitem_present d k v :
  k ∈ keys d → length (setitem d k v) = length d.
Proof.
  unfold keys. induction d as [|[k0 v0] d IH]; simpl.
  - by intros ?%elem_of_nil.
  - intros Hin. case_decide; simpl; [done|].
    apply elem_of_cons in Hin as [->|Hin]; [done|]. by rewrite IH.
Qed.

Lemma keys_setitem_present d k v : k ∈ keys d → keys (setitem d k v) = keys d.
Proof.
  unfold keys. induction d as [|[k0 v0] d IH]; simpl.
  - by intros ?%elem_of_nil.
  - intros Hin. case_decide; simpl; [done|].
    apply elem_of_cons in Hin as [->|Hin]; [done|]. f_equal. by apply IH.
Qed.

(** Every entry of [setitem d k v] is the new one or was in [d]. *)
Lemma elem_of_setitem d k v e :
  e ∈ setitem d k v → e = (k, v) ∨ e ∈ d.
Proof.
  induction d as [|[k0 v0] d IH]; simpl.
  - intros ->%list_elem_of_singleton. by left.
  - case_decide; subst; rewrite !elem_of_cons; naive_solver.
Qed.

(** [pop] succeeds exactly on the dictionaries that have the key. *)
Lemma pop_Some d k v : get d k = Some v → pop d k = Ok (v, remove d k).
Proof. unfold pop. by intros ->. Qed.

Lemma pop_None d k : get d k = None → pop d k = Raise (KeyError k).
Proof. unfold pop. by intros ->. Qed.

Lemma get_remove d k : NoDup (keys d) → get (remove d k) k = None.
Proof.
  unfold keys. induction d as [|[k0 v0] d IH]; simpl; [done|].
  intros [Hnin Hnd]%NoDup_cons. case_decide; subst; simpl.
  - by apply get_None_keys.
  - case_decide; [done|]. by apply IH.
Qed.

End Facts.
End PyDictFacts.

(** ** Columns of a table as Python values *)

Section ArrayFacts.
Context {num : Type}.
Implicit Types (df : DataFrame num) (col l : list num) (name : string).

Lemma chunks_singletons l : chunks (length l) 1 l = (λ x, [x]) <$> l.
Proof. induction l as [|x l IH]; simpl; [done|]. by rewrite drop_0, IH. Qed.

(** A one-dimensional array becomes the list of its elements. *)
Lemma tolist_vector l :
  tolist {| shape := [length l]; flat := l |} = PyList (PyNum <$> l).
Proof.
  unfold tolist; simpl. rewrite chunks_singletons, <- list_fmap_compose.
  by f_equal.
Qed.

(** A zero-dimensional array becomes a bare scalar. *)
Lemma tolist_scalar (x : num) l :
  tolist {| shape := []; flat := x :: l |} = PyNum x.
Proof. done. Qed.

Lemma values_one_column n name col :
  length col = n →
  values {| index_len := n; cols := [(name, col)] |}
  = {| shape := [n; 1]; flat := col |}.
Proof.
  intros <-. unfold values; simpl. f_equal.
  induction col as [|x col IH]; simpl; [done|].
  f_equal. rewrite <- fmap_S_seq, <- list_fmap_compose.
  etrans; [|exact IH]. reflexivity.
Qed.

Lemma filter_label_absent (cs : list (string * list num)) name :
  name ∉ cs.*1 → filter (λ c, c.1 = name) cs = [].
Proof.
  induction cs as [|[k c] cs IH]; simpl; [done|].
  rewrite not_elem_of_cons. intros [Hne Hnin].
  rewrite filter_cons_False by (simpl; congruence). by apply IH.
Qed.

Lemma filter_label_unique (cs : list (string * list num)) name col :
  NoDup cs.*1 → (name, col) ∈ cs →
  filter (λ c, c.1 = name) cs = [(name, col)].
Proof.
  induction cs as [|[k c] cs IH]; simpl.
  - by intros _ ?%elem_of_nil.
  - intros [Hnin Hnd]%NoDup_cons Hin.
    apply elem_of_cons in Hin as [Heq|Hin].
    + injection Heq as <- <-. rewrite filter_cons_True by done.
      by rewrite filter_label_absent.
    + rewrite filter_cons_False; [by apply IH|].
      simpl. intros ->. apply Hnin, list_elem_of_fmap. by exists (name, col).
Qed.

(** What [df[[name]].values.squeeze().tolist()] gives for a column with a
    label of its own, when the table does not have exactly one row. *)
Lemma column_values_vector df name col :
  wf_frame df → NoDup (columns df) → (name, col) ∈ cols df →
  index_len df ≠ 1 →
  column_values df name = PyList (PyNum <$> col).
Proof.
  intros Hwf Hnd Hin Hlen.
  assert (length col = index_len df) as Hcol.
  { unfold wf_frame in Hwf. rewrite Forall_forall in Hwf. by apply (Hwf _ Hin). }
  unfold column_values, getitem_cols.
  rewrite (filter_label_unique _ name col) by done.
  rewrite values_one_column by done.
  unfold squeeze; simpl.
  rewrite filter_cons_True by done.
  rewrite filter_cons_False by (intros ?; done).
  rewrite filter_nil, <- Hcol. apply tolist_vector.
Qed.

(** With exactly one row, the same expression gives the cell itself. *)
Lemma column_values_scalar df name (x : num) :
  NoDup (columns df) → (name, [x]) ∈ cols df → index_len df = 1 →
  column_values df name = PyNum x.
Proof.
  intros Hnd Hin Hlen.
  unfold column_values, getitem_cols.
  rewrite (filter_label_unique _ name [x]) by done.
  rewrite Hlen, values_one_column by done.
  done.
Qed.

End ArrayFacts.

(** ** Normalisation *)

Section InitFacts.
Context {num img seg : Type}.
Variable read_csv : string → option (list string) → result (DataFrame num).
Variable loadtxt : string → result (ndarray num).
Implicit Types (df : DataFrame num) (name : string).
Implicit Types (mk : DataFrame num → string → @record num).

Lemma foldl_setitem_get {V} (f : string → V) (names : list string)
    (d : PyDict.t V) k :
  PyDict.get (foldl (λ d name, PyDict.setitem d name (f name)) d names) k
  = if decide (k ∈ names) then Some (f k) else PyDict.get d k.
Proof.
  revert d. induction names as [|n names IH]; intros d; simpl.
  - done.
  - rewrite IH, PyDictFacts.get_setitem.
    destruct (decide (k ∈ names)) as [Hin|Hnin].
    + by rewrite decide_True by (by right).
    + destruct (decide (n = k)) as [->|Hne].
      * by rewrite decide_True by left.
      * rewrite decide_False; [done|].
        rewrite elem_of_cons. intros [?|?]; congruence.
Qed.

Lemma foldl_setitem_fresh {V} (f : string → V) (names : list string)
    (d : PyDict.t V) :
  NoDup names → (∀ k, k ∈ names → k ∉ PyDict.keys d) →
  foldl (λ d name, PyDict.setitem d name (f name)) d names
  = d ++ ((λ name, (name, f name)) <$> names).
Proof.
  revert d. induction names as [|n names IH]; intros d Hnd Hfresh; simpl.
  - by rewrite app_nil_r.
  - apply NoDup_cons in Hnd as [Hnin Hnd].
    rewrite PyDictFacts.setitem_fresh by (apply Hfresh; left).
    rewrite IH; [by rewrite <- app_assoc | done |].
    intros k Hk. unfold PyDict.keys. rewrite fmap_app, elem_of_app.
    intros [Hin|Hin%list_elem_of_singleton].
    + by apply (Hfresh k); [right|].
    + simpl in Hin. congruence.
Qed.

Lemma foldl_setitem_entries {V} (f : string → V) (names : list string)
    (d : PyDict.t V) e :
  e ∈ foldl (λ d name, PyDict.setitem d name (f name)) d names →
  e ∈ d ∨ (e.1 ∈ names ∧ e.2 = f e.1).
Proof.
  revert d. induction names as [|n names IH]; intros d; simpl; [by left|].
  intros [[->|Hin]%PyDictFacts.elem_of_setitem|[Hin Heq]]%IH.
  - right. split; [left|]; done.
  - by left.
  - right. split; [by right | done].
Qed.

(** With distinct column labels a category holds one record per column, in
    column order. *)
Lemma fill_NoDup mk df :
  NoDup (columns df) →
  fill mk (Some df) = (λ name, (name, mk df name)) <$> columns df.
Proof.
  intros Hnd. unfold fill. rewrite foldl_setitem_fresh; [done..|].
  intros k _. apply not_elem_of_nil.
Qed.

(** Whatever the labels, the record stored under a label is the one built
    for it. *)
Lemma fill_get mk df name :
  name ∈ columns df → PyDict.get (fill mk (Some df)) name = Some (mk df name).
Proof.
  intros Hin. unfold fill. by rewrite foldl_setitem_get, decide_True.
Qed.

Lemma fill_entries mk table e :
  e ∈ fill mk table →
  ∃ df, table = Some df ∧ e.1 ∈ columns df ∧ e.2 = mk df e.1.
Proof.
  destruct table as [df|]; simpl; [|by intros ?%elem_of_nil].
  intros [?%elem_of_nil|[??]]%foldl_setitem_entries; [done|].
  by exists df.
Qed.

Lemma length_fill_NoDup mk df :
  NoDup (columns df) → length (fill mk (Some df)) = length (columns df).
Proof. intros Hnd. by rewrite fill_NoDup, length_fmap. Qed.

(** The spike files are read in list order; each array is stored with the
    label [None] and the flag [False]. *)
Lemma load_spikes_Ok files arrays (acc : list (@spike num)) :
  Forall2 (λ f a, loadtxt f = Ok a) files arrays →
  load_spikes loadtxt files acc
  = Ok (acc ++ ((λ a, (a, None, false)) <$> arrays)).
Proof.
  intros H. revert acc. induction H as [|f a files arrays Hf _ IH]; intros acc.
  - simpl. by rewrite app_nil_r.
  - simpl. rewrite Hf. simpl. rewrite IH. by rewrite <- app_assoc.
Qed.

Lemma load_spikes_inv files (acc sp : list (@spike num)) :
  load_spikes loadtxt files acc = Ok sp →
  ∃ arrays, Forall2 (λ f a, loadtxt f = Ok a) files arrays
            ∧ sp = acc ++ ((λ a, (a, None, false)) <$> arrays).
Proof.
  revert acc. induction files as [|f files IH]; intros acc; simpl.
  - intros [= <-]. exists []. by rewrite app_nil_r.
  - destruct (loadtxt f) as [a|e] eqn:Hf; simpl; [|done].
    intros (arrays & HF & ->)%IH. exists (a :: arrays).
    split; [by constructor|]. by rewrite <- app_assoc.
Qed.

(** [__init__] returns as soon as the two readers do. *)
Lemma init_Ok (args : @init_args num img seg) table arrays :
  resolve_confounds read_csv args = Ok table →
  Forall2 (λ f a, loadtxt f = Ok a) (default [] (arg_spikes_files args)) arrays →
  __init__ read_csv loadtxt args
  = Ok {| timeseries := arg_timeseries args;
          segments := arg_segments args;
          tr := arg_tr args;
          confounds :=
            fill (confound_record (default ∅ (arg_units args))
                    (default ∅ (arg_vlines args))) table;
          physio := fill (physio_record (default ∅ (arg_units args)))
                      (arg_physio args);
          physio_confounds :=
            fill (physio_record (default ∅ (arg_units args)))
              (arg_physio_confounds args);
          spikes := (λ a, (a, None, false)) <$> arrays;
          nskip := arg_nskip args;
          sort_carpet := arg_sort_carpet args;
          paired_carpet := arg_paired_carpet args |}.
Proof.
  intros Htable Hsp. unfold __init__. rewrite Htable. simpl.
  by rewrite (load_spikes_Ok _ arrays).
Qed.

End InitFacts.

(** ** Rendering *)

Section PlotFacts.
Context {num color img seg : Type}.
Variable color_palette : string → nat → list color.

(** seaborn's contract: a palette asked with [n_colors = n] has [n]
    colours. *)
Hypothesis color_palette_length :
  ∀ name n, length (color_palette name n) = n.

Abbreviation event := (@event num color img seg).
Abbreviation state := (@state num color img seg).
Abbreviation fMRIPlot := (@fMRIPlot num img seg).
Implicit Types (obj s : fMRIPlot) (st : state) (grid : GridSpec).
Implicit Types (items : list (string * @record num)) (cs : list color).

Lemma signals_set_signals cat d s : signals cat (set_signals cat d s) = d.
Proof. by destruct cat. Qed.

Lemma set_signals_twice cat d d' s :
  set_signals cat d' (set_signals cat d s) = set_signals cat d' s.
Proof. by destruct cat. Qed.

Lemma set_signals_id cat s : set_signals cat (signals cat s) s = s.
Proof. by destruct cat, s. Qed.

Lemma trace_tr_set_signals cat d s :
  trace_tr cat (set_signals cat d s) = trace_tr cat s.
Proof. by destruct cat. Qed.

Lemma grid_getitem_row grid (r : nat) :
  r < nrows grid * ncols grid →
  grid_getitem grid (Z.of_nat r) = Ok (mk_SubplotSpec grid r).
Proof.
  intros Hr. unfold grid_getitem.
  destruct (decide (Z.of_nat r < 0)%Z); [lia|].
  rewrite decide_True by lia. by rewrite Nat2Z.id.
Qed.

Lemma grid_getitem_last grid :
  0 < nrows grid * ncols grid →
  grid_getitem grid (-1)
  = Ok (mk_SubplotSpec grid (nrows grid * ncols grid - 1)).
Proof.
  intros Hr. unfold grid_getitem.
  destruct (decide (-1 < 0)%Z); [|lia].
  rewrite decide_True by lia. do 2 f_equal. lia.
Qed.

Lemma spikes_loop_Ok grid (items : list (@spike num)) (r : nat) st :
  r + length items ≤ nrows grid * ncols grid →
  spikes_loop grid items (Z.of_nat r) st
  = (Ok (Z.of_nat (r + length items)),
     {| self := self st;
        calls := calls st ++ spike_calls grid (tr (self st)) r items |}).
Proof.
  revert r st. induction items as [|[[tsz name] iszs] items IH]; intros r st Hr.
  - simpl. rewrite app_nil_r, Nat.add_0_r. by destruct st.
  - simpl in Hr. cbn [spikes_loop].
    unfold mbind, M_bind, lift. rewrite grid_getitem_row by lia.
    cbn [get_self call self calls].
    replace (Z.of_nat r + 1)%Z with (Z.of_nat (S r)) by lia.
    rewrite IH by lia. cbn [self calls spike_calls length].
    rewrite <- app_assoc. do 3 f_equal. lia.
Qed.

Lemma length_trace_calls grid tr_arg r items cs :
  length cs = length items →
  length (trace_calls (img:=img) (seg:=seg) grid tr_arg r items cs)
  = length items.
Proof.
  revert r cs. induction items as [|[name kw] items IH]; intros r [|c cs];
    simpl; try done.
  intros [= Hlen]. by rewrite IH.
Qed.

(** A trace loop over records that all have their ["values"]: it takes one
    row and one colour per record, strips the records held by the object and
    ends on the row after its last. *)
Lemma signals_loop_Ok cat grid palette offset items i r cs pre st :
  Forall (λ e, has_values e.2) items →
  signals cat (self st) = pre ++ items →
  length pre = i →
  length cs = length items →
  (∀ j c, cs !! j = Some c → palette_getitem palette (offset + i + j) = Ok c) →
  r + length items ≤ nrows grid * ncols grid →
  signals_loop cat grid palette offset i items (Z.of_nat r) st
  = (Ok (Z.of_nat (r + length items)),
     {| self := set_signals cat (pre ++ (prod_map id popped <$> items)) (self st);
        calls := calls st
                 ++ trace_calls grid (trace_tr cat (self st)) r items cs |}).
Proof.
  revert i r cs pre st.
  induction items as [|[name kw] items IH]; intros i r cs pre st Hv Hsig Hi Hcs Hpal Hr.
  - simpl. rewrite !app_nil_r, Nat.add_0_r. rewrite app_nil_r in Hsig.
    rewrite <- Hsig, set_signals_id. by destruct st.
  - destruct cs as [|c cs]; [done|]. simpl in Hr, Hcs.
    apply Forall_cons in Hv as [[v Hget] Hv]. simpl in Hget.
    cbn [signals_loop]. unfold mbind, M_bind, lift.
    rewrite (PyDictFacts.pop_Some _ _ v) by done.
    cbn [modify_self self calls]. rewrite grid_getitem_row by lia.
    cbn [get_self self calls].
    specialize (Hpal 0 c eq_refl) as Hc. rewrite Nat.add_0_r in Hc.
    rewrite Hc. cbn [call self calls].
    replace (Z.of_nat r + 1)%Z with (Z.of_nat (S r)) by lia.
    rewrite Hsig. subst i. unfold PyDict.t.
    rewrite insert_app_r_alt, Nat.sub_diag by lia. cbn [insert list_insert].
    rewrite (IH (S (length pre)) (S r) cs (pre ++ [(name, popped kw)]));
      cbn [self calls].
    + rewrite set_signals_twice, trace_tr_set_signals.
      rewrite <- !app_assoc. cbn [trace_calls fmap list_fmap length].
      unfold record_get. rewrite Hget. cbn [default from_option prod_map fst snd id].
      do 3 f_equal. lia.
    + done.
    + by rewrite signals_set_signals, <- app_assoc.
    + rewrite length_app. simpl. lia.
    + by injection Hcs.
    + intros j c' Hj. specialize (Hpal (S j) c' Hj).
      by replace (offset + S (length pre) + j)
        with (offset + length pre + S j) by lia.
    + lia.
Qed.

Lemma length_signals_insert cat cat' i (e : string * @record num) s :
  length (signals cat' (set_signals cat (<[i:=e]> (signals cat s)) s))
  = length (signals cat' s).
Proof. destruct cat, cat'; simpl; try done; apply length_insert. Qed.

(** Whatever the records hold, a trace loop whose palette reads are in range
    either runs through or stops at a [pop]: it never fails on the palette
    or on the grid.  It leaves the size of every dictionary as it was. *)
Lemma signals_loop_safe cat grid palette offset items i r cs st :
  length cs = length items →
  (∀ j c, cs !! j = Some c → palette_getitem palette (offset + i + j) = Ok c) →
  r + length items ≤ nrows grid * ncols grid →
  ∃ st',
    (signals_loop cat grid palette offset i items (Z.of_nat r) st
     = (Ok (Z.of_nat (r + length items)), st')
     ∧ ∀ cat', length (signals cat' (self st'))
               = length (signals cat' (self st)))
    ∨ signals_loop cat grid palette offset i items (Z.of_nat r) st
      = (Raise (KeyError "values"), st').
Proof.
  revert i r cs st.
  induction items as [|[name kw] items IH]; intros i r cs st Hcs Hpal Hr.
  - exists st. left. simpl. by rewrite Nat.add_0_r.
  - destruct cs as [|c cs]; [done|]. simpl in Hr, Hcs.
    cbn [signals_loop]. unfold mbind, M_bind, lift, PyDict.pop.
    destruct (PyDict.get kw "values") as [v|]; [|exists st; by right].
    cbn [modify_self self calls]. rewrite grid_getitem_row by lia.
    cbn [get_self self calls].
    specialize (Hpal 0 c eq_refl) as Hc. rewrite Nat.add_0_r in Hc.
    rewrite Hc. cbn [call self calls].
    replace (Z.of_nat r + 1)%Z with (Z.of_nat (S r)) by lia.
    cbn [length].
    replace (r + S (length items)) with (S r + length items) by lia.
    match goal with |- context [signals_loop _ _ _ _ _ _ _ ?st1] =>
      destruct (IH (S i) (S r) cs st1) as (st' & [[Hrun Hsize]|Hrun])
    end.
    + by injection Hcs.
    + intros j c' Hj. specialize (Hpal (S j) c' Hj).
      by replace (offset + S i + j) with (offset + i + S j) by lia.
    + lia.
    + exists st'. left. split; [done|]. intros cat'.
      rewrite Hsize. cbn [self]. apply length_signals_insert.
    + exists st'. by right.
Qed.

Lemma GridSpec_new_grid_of obj :
  let n := 1 + length (confounds obj) + length (spikes obj)
           + length (physio obj) + length (physio_confounds obj) in
  GridSpec_new n 1 0 (5 # 100) (replicate (n - 1) 1 ++ [5]) = Ok (grid_of obj).
Proof.
  intros n. unfold GridSpec_new. rewrite decide_True; [done|].
  rewrite length_app, length_replicate. subst n. simpl. lia.
Qed.

Lemma truthy_length {V} (d : PyDict.t V) :
  PyDict.truthy d = bool_decide (0 < length d).
Proof. by destruct d. Qed.

Lemma palette_guard obj :
  PyDict.truthy (confounds obj) || PyDict.truthy (physio obj)
    || PyDict.truthy (physio_confounds obj)
  = bool_decide (0 < nsignals obj).
Proof.
  unfold nsignals.
  destruct (confounds obj), (physio obj), (physio_confounds obj); simpl;
    try done; symmetry; apply bool_decide_eq_true; lia.
Qed.

(** Reads of the palette bound on line 150, by the segment they fall in. *)
Lemma palette_segment (pal : list color) palette n k j c :
  (0 < length pal → palette = Some pal) →
  take n (drop k pal) !! j = Some c →
  palette_getitem palette (k + 0 + j) = Ok c.
Proof.
  intros Hpal [Hj _]%lookup_take_Some. rewrite lookup_drop in Hj.
  rewrite Nat.add_0_r. apply lookup_lt_Some in Hj as Hlt.
  rewrite Hpal by lia. simpl. by rewrite Hj.
Qed.

Lemma plot_fresh obj figure :
  fresh obj →
  plot color_palette obj figure
  = (Ok (default CurrentFigure figure),
     {| self := stripped obj;
        calls := plot_calls (color_palette "husl" (nsignals obj)) obj figure |}).
Proof.
  intros Hfresh. unfold plot, plot_body.
  pose proof (color_palette_length "husl" (nsignals obj)) as Hlen.
  set (pal := color_palette "husl" (nsignals obj)) in *.
  unfold mbind, M_bind, mret, M_ret. cbn [call get_self self calls].
  assert (∀ st, (match figure with
                 | Some f => λ st, (Ok f, st)
                 | None => λ st, match call plt_gcf st with
                                 | (Ok _, st') => (Ok CurrentFigure, st')
                                 | (Raise e, st') => (Raise e, st')
                                 end
                 end) st
                = (Ok (default CurrentFigure figure),
                   {| self := self st;
                      calls := calls st ++ match figure with
                                           | None => [plt_gcf]
                                           | Some _ => []
                                           end |})) as ->.
  { intros [s c]. destruct figure; simpl; by rewrite ?app_nil_r. }
  cbn [self calls]. unfold lift at 1. rewrite GridSpec_new_grid_of.
  change 0%Z with (Z.of_nat 0).
  rewrite spikes_loop_Ok by (simpl; lia). cbn [self calls].
  rewrite palette_guard.
  assert (length pal = length (confounds obj) + length (physio obj)
                       + length (physio_confounds obj)) as Hlen' by done.
  assert (∀ cat, Forall (λ e, has_values e.2) (signals cat obj)) as Hv.
  { intros cat. apply Forall_forall. intros e He. by apply (Hfresh cat). }
  unfold plot_calls.
  destruct (bool_decide (0 < nsignals obj)) eqn:Hb;
    [apply bool_decide_eq_true in Hb | apply bool_decide_eq_false in Hb];
    cbn [self calls].
  all: rewrite (signals_loop_Ok Confounds _ _ _ _ _ _
             (take (length (confounds obj)) pal) []);
    [|apply (Hv Confounds)|done|done|rewrite length_take; lia
     |intros j c Hj; apply (palette_segment pal _ (length (confounds obj)) 0 j c); [intros ?; done || lia|done]
     |simpl; lia].
  all: cbn [self calls signals set_signals physio app].
  all: rewrite (signals_loop_Ok Physio _ _ _ _ _ _
             (take (length (physio obj)) (drop (length (confounds obj)) pal)) []);
    [|apply (Hv Physio)|done|done|rewrite length_take, length_drop; lia
     |intros j c Hj; apply (palette_segment pal _ (length (physio obj)) (length (confounds obj)) j c); [intros ?; done || lia|done]
     |simpl; lia].
  all: cbn [self calls signals set_signals physio_confounds app].
  all: rewrite (signals_loop_Ok PhysioConfounds _ _ _ _ _ _
             (drop (length (confounds obj) + length (physio obj)) pal) []);
    [|apply (Hv PhysioConfounds)|done|done|rewrite length_drop; lia
     |intros j c Hj;
      apply (palette_segment pal _ (length pal)
               (length (confounds obj) + length (physio obj)) j c);
        [intros ?; done || lia
        |by rewrite take_ge by (rewrite length_drop; lia)]
     |simpl; lia].
  all: cbn [self calls signals set_signals app].
  all: unfold lift; rewrite grid_getitem_last by (simpl; lia).
  all: cbn [self calls timeseries segments tr sort_carpet nskip paired_carpet
            set_signals trace_tr Nat.add].
  all: rewrite Nat.mul_1_r; f_equal; f_equal.
  all: cbn [app]; by rewrite <- !app_assoc.
Qed.

(** On any object at all, [plot] returns or stops at a [pop("values")]. *)
Lemma plot_safe obj figure :
  ∃ r st',
    plot color_palette obj figure = (r, st')
    ∧ (r = Ok (default CurrentFigure figure) ∨ r = Raise (KeyError "values")).
Proof.
  unfold plot, plot_body.
  pose proof (color_palette_length "husl" (nsignals obj)) as Hlen.
  set (pal := color_palette "husl" (nsignals obj)) in *.
  unfold mbind, M_bind, mret, M_ret. cbn [call get_self self calls].
  assert (∀ st, (match figure with
                 | Some f => λ st, (Ok f, st)
                 | None => λ st, match call plt_gcf st with
                                 | (Ok _, st') => (Ok CurrentFigure, st')
                                 | (Raise e, st') => (Raise e, st')
                                 end
                 end) st
                = (Ok (default CurrentFigure figure),
                   {| self := self st;
                      calls := calls st ++ match figure with
                                           | None => [plt_gcf]
                                           | Some _ => []
                                           end |})) as ->.
  { intros [s c]. destruct figure; simpl; by rewrite ?app_nil_r. }
  cbn [self calls]. unfold lift at 1. rewrite GridSpec_new_grid_of.
  change 0%Z with (Z.of_nat 0).
  rewrite spikes_loop_Ok by (simpl; lia). cbn [self calls].
  rewrite palette_guard.
  assert (length pal = length (confounds obj) + length (physio obj)
                       + length (physio_confounds obj)) as Hlen' by done.
  destruct (bool_decide (0 < nsignals obj)) eqn:Hb;
    [apply bool_decide_eq_true in Hb | apply bool_decide_eq_false in Hb];
    cbn [self calls].
  all: match goal with |- context [signals_loop Confounds ?g ?p _ _ _ _ ?st] =>
         destruct (signals_loop_safe Confounds g p 0 (confounds obj) 0
                     (0 + length (spikes obj))
                     (take (length (confounds obj)) pal) st)
           as (st1 & [[Hrun1 Hsz1]|Hrun1]);
           [rewrite length_take; lia
           |intros j c Hj;
            apply (palette_segment pal _ (length (confounds obj)) 0 j c);
              [intros ?; done || lia|done]
           |simpl; lia
           |rewrite Hrun1
           |rewrite Hrun1; eexists _, _; split; [reflexivity|by right]]
       end.
  all: pose proof (Hsz1 Physio) as HszP; pose proof (Hsz1 PhysioConfounds) as HszQ;
       cbn [self signals] in HszP, HszQ.
  all: match goal with |- context [signals_loop Physio ?g ?p _ _ _ _ ?st] =>
         destruct (signals_loop_safe Physio g p (length (confounds obj))
                     (physio (self st1)) 0
                     (0 + length (spikes obj) + length (confounds obj))
                     (take (length (physio obj))
                        (drop (length (confounds obj)) pal)) st)
           as (st2 & [[Hrun2 Hsz2]|Hrun2]);
           [rewrite length_take, length_drop; lia
           |intros j c Hj;
            apply (palette_segment pal _ (length (physio obj))
                     (length (confounds obj)) j c);
              [intros ?; done || lia|done]
           |simpl; lia
           |rewrite Hrun2
           |rewrite Hrun2; eexists _, _; split; [reflexivity|by right]]
       end.
  all: pose proof (Hsz2 PhysioConfounds) as HszQ'; cbn [self signals] in HszQ'.
  all: match goal with |- context [signals_loop PhysioConfounds ?g ?p _ _ _ _ ?st] =>
         destruct (signals_loop_safe PhysioConfounds g p
                     (length (confounds obj) + length (physio obj))
                     (physio_confounds (self st2)) 0
                     (0 + length (spikes obj) + length (confounds obj)
                      + length (physio (self st1)))
                     (drop (length (confounds obj) + length (physio obj)) pal)
                     st)
           as (st3 & [[Hrun3 Hsz3]|Hrun3]);
           [rewrite length_drop; lia
           |intros j c Hj;
            apply (palette_segment pal _ (length pal)
                     (length (confounds obj) + length (physio obj)) j c);
              [intros ?; done || lia
              |by rewrite take_ge by (rewrite length_drop; lia)]
           |simpl; lia
           |rewrite Hrun3
           |rewrite Hrun3; eexists _, _; split; [reflexivity|by right]]
       end.
  all: unfold lift; rewrite grid_getitem_last by (simpl; lia).
  all: eexists _, _; split; [reflexivity|by left].
Qed.

(** *** What the log of a run shows *)

Ltac by_loop_induction :=
  let IH := fresh "IH" in
  let name := fresh "name" in
  let kw := fresh "kw" in
  let c := fresh "c" in
  let cs' := fresh "cs" in
  match goal with
  | |- context [trace_calls _ _ ?r ?items ?cs] =>
      revert r cs; induction items as [|[name kw] items IH]; intros r [|c cs'];
      simpl; try done; intros; rewrite ?IH by congruence; try done
  | |- context [spike_calls _ _ ?r ?items] =>
      revert r; induction items as [|[[? ?] ?] items IH]; intros r;
      simpl; rewrite ?IH; try done
  end.

Lemma panels_spike_calls grid t r (items : list (@spike num)) :
  omap event_panel (spike_calls (color:=color) (img:=img) (seg:=seg) grid t r items)
  = zip (seq r (length items)) (SpikePanel <$> items.*1.*1).
Proof. by_loop_induction. Qed.

Lemma panels_trace_calls grid t r items cs :
  length cs = length items →
  omap event_panel (trace_calls (img:=img) (seg:=seg) grid t r items cs)
  = zip (seq r (length items)) (TracePanel (num:=num) <$> items.*1).
Proof. by_loop_induction. Qed.

Lemma cells_spike_calls grid t r (items : list (@spike num)) :
  Forall (λ gs, gridspec gs = grid)
    (omap event_cell (spike_calls (color:=color) (img:=img) (seg:=seg) grid t r items)).
Proof. by_loop_induction. by constructor. Qed.

Lemma cells_trace_calls grid t r items cs :
  Forall (λ gs, gridspec gs = grid)
    (omap event_cell (trace_calls (img:=img) (seg:=seg) grid t r items cs)).
Proof. by_loop_induction. by constructor. Qed.

Lemma traces_spike_calls grid t r (items : list (@spike num)) :
  omap event_trace (spike_calls (color:=color) (img:=img) (seg:=seg) grid t r items)
  = [].
Proof. by_loop_induction. Qed.

Lemma traces_trace_calls grid t r items cs :
  omap event_trace (trace_calls (img:=img) (seg:=seg) grid t r items cs)
  = zip items.*1 cs.
Proof. by_loop_induction. Qed.

Lemma trs_spike_calls grid t r (items : list (@spike num)) :
  omap event_trace_tr (spike_calls (color:=color) (img:=img) (seg:=seg) grid t r items)
  = [].
Proof. by_loop_induction. Qed.

Lemma trs_trace_calls grid t r items cs :
  length cs = length items →
  omap event_trace_tr (trace_calls (img:=img) (seg:=seg) grid t r items cs)
  = (λ name, (name, t)) <$> items.*1.
Proof. by_loop_induction. Qed.

Lemma kwargs_spike_calls grid t r (items : list (@spike num)) :
  omap event_kwargs (spike_calls (color:=color) (img:=img) (seg:=seg) grid t r items)
  = [].
Proof. by_loop_induction. Qed.

Lemma kwargs_trace_calls grid t r items cs :
  length cs = length items →
  omap event_kwargs (trace_calls (img:=img) (seg:=seg) grid t r items cs)
  = strip items.
Proof. by_loop_induction. Qed.

Lemma spikes_spike_calls grid t r (items : list (@spike num)) :
  omap event_spike (spike_calls (color:=color) (img:=img) (seg:=seg) grid t r items)
  = items.
Proof. by_loop_induction. Qed.

Lemma spikes_trace_calls grid t r items cs :
  omap event_spike (trace_calls (img:=img) (seg:=seg) grid t r items cs) = [].
Proof. by_loop_induction. Qed.

Lemma palettes_spike_calls grid t r (items : list (@spike num)) :
  omap event_palette (spike_calls (color:=color) (img:=img) (seg:=seg) grid t r items)
  = [].
Proof. by_loop_induction. Qed.

Lemma palettes_trace_calls grid t r items cs :
  omap event_palette (trace_calls (img:=img) (seg:=seg) grid t r items cs) = [].
Proof. by_loop_induction. Qed.

End PlotFacts.

(** ** The composition as a whole *)

Section Composition.
Context {num color img seg : Type}.
Variable read_csv : string → option (list string) → result (DataFrame num).
Variable loadtxt : string → result (ndarray num).
Variable color_palette : string → nat → list color.
Hypothesis color_palette_length :
  ∀ name n, length (color_palette name n) = n.

Abbreviation init := (__init__ (img:=img) (seg:=seg) read_csv loadtxt).
Abbreviation run := (plot (img:=img) (seg:=seg) color_palette).
Implicit Types (args : @init_args num img seg) (obj : @fMRIPlot num img seg).
Implicit Types (table : option (DataFrame num)) (figure : option Figure).

(** What [__init__] returns, when it returns. *)
Lemma init_inv args obj :
  init args = Ok obj →
  ∃ table arrays,
    resolve_confounds read_csv args = Ok table
    ∧ Forall2 (λ f a, loadtxt f = Ok a) (default [] (arg_spikes_files args)) arrays
    ∧ confounds obj
      = fill (confound_record (default ∅ (arg_units args))
                (default ∅ (arg_vlines args))) table
    ∧ physio obj
      = fill (physio_record (default ∅ (arg_units args))) (arg_physio args)
    ∧ physio_confounds obj
      = fill (physio_record (default ∅ (arg_units args)))
          (arg_physio_confounds args)
    ∧ spikes obj = (λ a, (a, None, false)) <$> arrays
    ∧ tr obj = arg_tr args.
Proof.
  unfold __init__.
  destruct (resolve_confounds read_csv args) as [table|e] eqn:Htable; [|done].
  simpl.
  destruct (load_spikes loadtxt _ []) as [sp|e] eqn:Hsp; [|done].
  simpl. intros [= <-].
  apply load_spikes_inv in Hsp as (arrays & HF & ->).
  by exists table, arrays.
Qed.

(** A new object has all its ["values"]. *)
Lemma init_fresh args obj : init args = Ok obj → fresh obj.
Proof.
  intros (table & arrays & _ & _ & Hc & Hp & Hq & _)%init_inv cat e He.
  unfold has_values.
  destruct cat; simpl in He; rewrite ?Hc, ?Hp, ?Hq in He;
    apply fill_entries in He as (df & _ & _ & ->); by eexists.
Qed.

Lemma zip_seq_app {A} r (l1 l2 : list A) :
  zip (seq r (length (l1 ++ l2))) (l1 ++ l2)
  = zip (seq r (length l1)) l1 ++ zip (seq (r + length l1) (length l2)) l2.
Proof.
  rewrite length_app, seq_app. apply zip_with_app. by rewrite length_seq.
Qed.

(** The rows of a run without failure, top to bottom. *)
Lemma panels_plot_calls (pal : list color) obj figure :
  length pal = nsignals obj →
  omap event_panel (plot_calls pal obj figure)
  = zip (seq 0 (length (confounds obj) + length (spikes obj)
                + length (physio obj) + length (physio_confounds obj) + 1))
      ((SpikePanel <$> (spikes obj).*1.*1)
       ++ (TracePanel <$> PyDict.keys (confounds obj))
       ++ (TracePanel <$> PyDict.keys (physio obj))
       ++ (TracePanel <$> PyDict.keys (physio_confounds obj))
       ++ [CarpetPanel]).
Proof.
  intros Hlen. unfold nsignals in Hlen. unfold plot_calls, PyDict.keys.
  cbn zeta. rewrite !omap_app.
  rewrite panels_spike_calls.
  do 3 (rewrite panels_trace_calls
          by (rewrite ?length_take, ?length_drop; lia)).
  match goal with |- _ = zip (seq 0 ?n) ?L =>
    replace n with (length L)
      by (rewrite !length_app, !length_fmap; unfold spike; simpl; lia)
  end.
  rewrite !zip_seq_app, !length_fmap.
  destruct figure, (bool_decide (0 < nsignals obj)); simpl;
    repeat f_equal; unfold spike; lia.
Qed.

Ltac split_calls :=
  unfold plot_calls; cbn zeta; rewrite !omap_app.

Ltac segment_lengths :=
  rewrite ?length_take, ?length_drop; unfold spike; lia.

(** Every renderer draws on the one grid. *)
Lemma cells_plot_calls (pal : list color) obj figure :
  Forall (λ gs, gridspec gs = grid_of obj)
    (omap event_cell (plot_calls pal obj figure)).
Proof.
  split_calls. rewrite !Forall_app.
  repeat split; try apply cells_spike_calls; try apply cells_trace_calls.
  - simpl. constructor.
  - destruct figure; simpl; constructor.
  - destruct (bool_decide _); simpl; constructor.
  - simpl. by repeat constructor.
Qed.

(** The traces of a run without failure, with their colours. *)
Lemma traces_plot_calls (pal : list color) obj figure :
  length pal = nsignals obj →
  omap event_trace (plot_calls pal obj figure)
  = zip (PyDict.keys (confounds obj) ++ PyDict.keys (physio obj)
         ++ PyDict.keys (physio_confounds obj)) pal.
Proof.
  intros Hlen. unfold nsignals in Hlen. split_calls.
  rewrite traces_spike_calls, !traces_trace_calls.
  unfold PyDict.keys.
  rewrite <- (take_drop (length (confounds obj)) pal) at 4.
  rewrite <- (take_drop (length (physio obj))
                (drop (length (confounds obj)) pal)) at 2.
  rewrite drop_drop.
  rewrite !zip_with_app by (rewrite ?length_fmap; segment_lengths).
  destruct figure, (bool_decide (0 < nsignals obj)); simpl;
    by rewrite !app_nil_r.
Qed.

Lemma trs_plot_calls (pal : list color) obj figure :
  length pal = nsignals obj →
  omap event_trace_tr (plot_calls pal obj figure)
  = ((λ name, (name, tr obj)) <$> PyDict.keys (confounds obj))
    ++ ((λ name, (name, None)) <$> PyDict.keys (physio obj))
    ++ ((λ name, (name, tr obj)) <$> PyDict.keys (physio_confounds obj)).
Proof.
  intros Hlen. unfold nsignals in Hlen. split_calls.
  rewrite trs_spike_calls.
  do 3 (rewrite trs_trace_calls by segment_lengths).
  destruct figure, (bool_decide (0 < nsignals obj)); simpl;
    by rewrite app_nil_r.
Qed.

Lemma kwargs_plot_calls (pal : list color) obj figure :
  length pal = nsignals obj →
  omap event_kwargs (plot_calls pal obj figure)
  = strip (confounds obj) ++ strip (physio obj) ++ strip (physio_confounds obj).
Proof.
  intros Hlen. unfold nsignals in Hlen. split_calls.
  rewrite kwargs_spike_calls.
  do 3 (rewrite kwargs_trace_calls by segment_lengths).
  destruct figure, (bool_decide (0 < nsignals obj)); simpl;
    by rewrite app_nil_r.
Qed.

Lemma spikes_plot_calls (pal : list color) obj figure :
  omap event_spike (plot_calls pal obj figure) = spikes obj.
Proof.
  split_calls. rewrite spikes_spike_calls, !spikes_trace_calls.
  destruct figure, (bool_decide (0 < nsignals obj)); simpl;
    by rewrite app_nil_r.
Qed.

Lemma palettes_plot_calls (pal : list color) obj figure :
  omap event_palette (plot_calls pal obj figure)
  = if bool_decide (0 < nsignals obj) then [nsignals obj] else [].
Proof.
  split_calls. rewrite palettes_spike_calls, !palettes_trace_calls.
  by destruct figure, (bool_decide (0 < nsignals obj)).
Qed.

Lemma keys_fill_NoDup (mk : DataFrame num → string → @record num) table :
  NoDup (table_columns table) →
  PyDict.keys (fill mk table) = table_columns table.
Proof.
  destruct table as [df|]; simpl; [|done]. intros Hnd.
  change (foldl _ [] (columns df)) with (fill mk (Some df)).
  rewrite fill_NoDup by done. unfold PyDict.keys.
  rewrite <- list_fmap_compose. apply list_fmap_id.
Qed.

Lemma length_keys {V} (d : PyDict.t V) : length (PyDict.keys d) = length d.
Proof. apply length_fmap. Qed.

(** A run on a new object, in one equation. *)
Lemma run_init args obj figure :
  init args = Ok obj →
  run obj figure
  = (Ok (default CurrentFigure figure),
     {| self := stripped obj;
        calls := plot_calls (color_palette "husl" (nsignals obj)) obj figure |}).
Proof. intros Hinit. apply plot_fresh; [done|]. by eapply init_fresh. Qed.

(** The [i]-th entry of a zip of two lists of the same reach. *)
Lemma lookup_zip_names {A} (names : list string) (pal : list A) i name :
  names !! i = Some name → i < length pal →
  ∃ c, pal !! i = Some c ∧ zip names pal !! i = Some (name, c).
Proof.
  intros Hname Hi. destruct (lookup_lt_is_Some_2 pal i Hi) as [c Hc].
  exists c. split; [done|]. apply lookup_zip_with_Some. by exists name, c.
Qed.

(** C2. On a composition with [n = |confounds| + |physio| +
    |physio-confounds|] signals, the palettes [plot] asks seaborn for are:
    one of size [n] if [0 < n], none otherwise.  That palette has [n]
    entries; the [i]-th confound is drawn in [palette[i]], the [i]-th physio
    signal in [palette[nconfounds + i]] and the [i]-th physio confound in
    [palette[nconfounds + nphysio + i]]. *)
Theorem palette_size_and_offsets args obj figure :
  init args = Ok obj →
  let nconfounds := length (confounds obj) in
  let nphysio := length (physio obj) in
  let n := nconfounds + nphysio + length (physio_confounds obj) in
  let palette := color_palette "husl" n in
  let log := calls (run obj figure).2 in
  omap event_palette log = (if bool_decide (0 < n) then [n] else [])
  ∧ length palette = n
  ∧ (∀ i name, PyDict.keys (confounds obj) !! i = Some name →
       ∃ c, palette !! i = Some c
            ∧ omap event_trace log !! i = Some (name, c))
  ∧ (∀ i name, PyDict.keys (physio obj) !! i = Some name →
       ∃ c, palette !! (nconfounds + i) = Some c
            ∧ omap event_trace log !! (nconfounds + i) = Some (name, c))
  ∧ (∀ i name, PyDict.keys (physio_confounds obj) !! i = Some name →
       ∃ c, palette !! (nconfounds + nphysio + i) = Some c
            ∧ omap event_trace log !! (nconfounds + nphysio + i)
              = Some (name, c)).
Proof.
  intros Hinit nconfounds nphysio n palette log.
  pose proof (color_palette_length "husl" n) as Hlen.
  assert (omap event_trace log
          = zip (PyDict.keys (confounds obj) ++ PyDict.keys (physio obj)
                 ++ PyDict.keys (physio_confounds obj)) palette) as ->.
  { unfold log. rewrite (run_init args obj figure Hinit). cbn [snd calls].
    by apply traces_plot_calls. }
  split; [|split; [done|]].
  { unfold log. rewrite (run_init args obj figure Hinit). cbn [snd calls].
    apply palettes_plot_calls. }
  fold palette in Hlen. clearbody palette. clear log.
  subst n nphysio nconfounds.
  repeat split; intros i name Hname; apply lookup_zip_names;
    try (apply lookup_lt_Some in Hname; rewrite length_keys in Hname; lia).
  - by apply lookup_app_l_Some.
  - rewrite lookup_app_r by (rewrite length_keys; lia).
    rewrite length_keys, Nat.add_sub_swap, Nat.sub_diag by lia.
    by apply lookup_app_l_Some.
  - rewrite lookup_app_r by (rewrite length_keys; lia).
    rewrite lookup_app_r by (rewrite !length_keys; lia).
    rewrite !length_keys.
    by replace (length (confounds obj) + length (physio obj) + i
                - length (confounds obj) - length (physio obj)) with i by lia.
Qed.

(** C4. The trace renderer is called with [tr = None] for every physio
    signal, whatever the TR the composition was built with; confounds and
    physio confounds are drawn with that TR. *)
Theorem physio_traces_get_no_tr args obj figure :
  init args = Ok obj →
  tr obj = arg_tr args
  ∧ omap event_trace_tr (calls (run obj figure).2)
    = ((λ name, (name, arg_tr args)) <$> PyDict.keys (confounds obj))
      ++ ((λ name, (name, None)) <$> PyDict.keys (physio obj))
      ++ ((λ name, (name, arg_tr args)) <$> PyDict.keys (physio_confounds obj)).
Proof.
  intros Hinit.
  assert (tr obj = arg_tr args) as Htr.
  { by apply init_inv in Hinit as (? & ? & _ & _ & _ & _ & _ & _ & ?). }
  split; [done|].
  rewrite (run_init args obj figure Hinit). cbn [snd calls].
  rewrite trs_plot_calls by apply color_palette_length.
  by rewrite Htr.
Qed.

(** C7. [__init__] raises nothing on account of the two mappings, and in the
    record of a column [name] the field ["units"] is the value [units] maps
    [name] to, [None] if it maps it to nothing; likewise ["cutoff"] and
    [vlines] in the record of a confound. *)
Theorem units_and_cutoff_lookup args table arrays name :
  resolve_confounds read_csv args = Ok table →
  Forall2 (λ f a, loadtxt f = Ok a) (default [] (arg_spikes_files args)) arrays →
  let units := default ∅ (arg_units args) in
  let vlines := default ∅ (arg_vlines args) in
  let units_field : pyval num :=
    match units !! name with Some u => PyStr u | None => PyNone end in
  let cutoff_field : pyval num :=
    match vlines !! name with Some c => PyNum c | None => PyNone end in
  ∃ obj,
    init args = Ok obj
    ∧ (name ∈ table_columns table →
       ∃ r, PyDict.get (confounds obj) name = Some r
            ∧ PyDict.get r "units" = Some units_field
            ∧ PyDict.get r "cutoff" = Some cutoff_field)
    ∧ (name ∈ table_columns (arg_physio args) →
       ∃ r, PyDict.get (physio obj) name = Some r
            ∧ PyDict.get r "units" = Some units_field)
    ∧ (name ∈ table_columns (arg_physio_confounds args) →
       ∃ r, PyDict.get (physio_confounds obj) name = Some r
            ∧ PyDict.get r "units" = Some units_field).
Proof.
  intros Htable Hloads units vlines units_field cutoff_field.
  eexists. split; [by apply (init_Ok read_csv loadtxt args table arrays)|].
  cbn [confounds physio physio_confounds].
  repeat split.
  - destruct table as [df|]; [|by intros ?%elem_of_nil]. intros Hin.
    eexists. split; [by apply fill_get|]. done.
  - destruct (arg_physio args) as [df|]; [|by intros ?%elem_of_nil].
    intros Hin. eexists. split; [by apply fill_get|]. done.
  - destruct (arg_physio_confounds args) as [df|]; [|by intros ?%elem_of_nil].
    intros Hin. eexists. split; [by apply fill_get|]. done.
Qed.

(** C9. [__init__] keeps one entry per spike file, in list order: the array
    read from the file, the label [None] and the flag [False]; [plot] passes
    the spike renderer those arrays in that order, each with the title
    [None] and [zscored = False]. *)
Theorem spikes_in_file_order args table arrays figure :
  resolve_confounds read_csv args = Ok table →
  Forall2 (λ f a, loadtxt f = Ok a) (default [] (arg_spikes_files args)) arrays →
  ∃ obj,
    init args = Ok obj
    ∧ spikes obj = (λ a, (a, None, false)) <$> arrays
    ∧ omap event_spike (calls (run obj figure).2)
      = (λ a, (a, None, false)) <$> arrays.
Proof.
  intros Htable Hloads.
  pose proof (init_Ok read_csv loadtxt args table arrays Htable Hloads) as Hinit.
  eexists. split; [exact Hinit|]. split; [done|].
  rewrite (run_init args _ figure Hinit). cbn [snd calls].
  by rewrite spikes_plot_calls.
Qed.

Lemma length_strip (d : PyDict.t (@record num)) : length (strip d) = length d.
Proof. apply length_fmap. Qed.

(** C5. The record of a physio-confound column has no cutoff, whatever
    [vlines] holds for its name: reading the field gives [None], in the
    record [__init__] builds and in the keyword arguments [plot] passes to
    the trace renderer for that signal. *)
Theorem physio_confound_cutoff_is_none args obj :
  init args = Ok obj →
  (∀ name, name ∈ table_columns (arg_physio_confounds args) →
     ∃ r, PyDict.get (physio_confounds obj) name = Some r
          ∧ PyDict.get r "cutoff" = None
          ∧ record_get r "cutoff" = PyNone)
  ∧ (∀ figure i name, PyDict.keys (physio_confounds obj) !! i = Some name →
       ∃ kwargs,
         omap event_kwargs (calls (run obj figure).2)
           !! (length (confounds obj) + length (physio obj) + i)
         = Some (name, kwargs)
         ∧ record_get kwargs "cutoff" = PyNone).
Proof.
  intros Hinit.
  pose proof Hinit as (table & arrays & _ & _ & _ & _ & Hq & _)%init_inv.
  split.
  - intros name Hin. rewrite Hq.
    destruct (arg_physio_confounds args) as [df|]; [|by apply elem_of_nil in Hin].
    eexists. split; [by apply fill_get|]. done.
  - intros figure i name Hname.
    rewrite (run_init args obj figure Hinit). cbn [snd calls].
    rewrite kwargs_plot_calls by apply color_palette_length.
    rewrite lookup_app_r by (rewrite length_strip; lia).
    rewrite lookup_app_r by (rewrite !length_strip; lia).
    rewrite !length_strip.
    replace (length (confounds obj) + length (physio obj) + i
             - length (confounds obj) - length (physio obj)) with i by lia.
    apply list_lookup_fmap_Some in Hname as ([name' r] & -> & Hlook).
    assert ((name', r) ∈ physio_confounds obj) as Hin
      by (by eapply list_elem_of_lookup_2).
    rewrite Hq in Hin. apply fill_entries in Hin as (df & _ & _ & Hr).
    simpl in Hr. exists (popped r). split.
    + apply list_lookup_fmap_Some. by exists (name', r).
    + by rewrite Hr.
Qed.

Lemma zip_seq_snoc {A} (l : list A) x n :
  n = length l + 1 →
  zip (seq 0 n) (l ++ [x]) = zip (seq 0 (length l)) l ++ [(length l, x)].
Proof.
  intros ->. rewrite seq_app. by rewrite zip_with_app by (by rewrite length_seq).
Qed.

(** C8. The carpet is the last panel drawn and sits on the last row of the
    grid; that row has height ratio 5 and every row above it, on which the
    other panels are, has height ratio 1. *)
Theorem carpet_last_and_five_times_taller args obj figure :
  init args = Ok obj →
  let log := calls (run obj figure).2 in
  ∃ grid rows,
    Forall (λ gs, gridspec gs = grid) (omap event_cell log)
    ∧ ncols grid = 1
    ∧ omap event_panel log = rows ++ [(nrows grid - 1, CarpetPanel)]
    ∧ Forall (λ p, p.1 < nrows grid - 1 ∧ p.2 ≠ CarpetPanel) rows
    ∧ length (height_ratios grid) = nrows grid
    ∧ height_ratios grid !! (nrows grid - 1) = Some 5
    ∧ (∀ j, j < nrows grid - 1 → height_ratios grid !! j = Some 1).
Proof.
  intros Hinit log. unfold log.
  rewrite (run_init args obj figure Hinit). cbn [snd calls].
  set (L := (((SpikePanel <$> (spikes obj).*1.*1)
              ++ (TracePanel <$> PyDict.keys (confounds obj)))
             ++ (TracePanel <$> PyDict.keys (physio obj)))
            ++ (TracePanel <$> PyDict.keys (physio_confounds obj))).
  assert (length L = nrows (grid_of obj) - 1) as HL.
  { unfold L, PyDict.keys. rewrite !length_app, !length_fmap.
    simpl. unfold spike. lia. }
  exists (grid_of obj), (zip (seq 0 (length L)) L).
  split; [apply cells_plot_calls|]. split; [done|].
  split; [|split; [|split; [|split]]].
  - rewrite panels_plot_calls by apply color_palette_length.
    rewrite !app_assoc. fold L. rewrite <- HL. apply zip_seq_snoc.
    rewrite HL. simpl. unfold spike. lia.
  - apply Forall_forall. intros [j p] Hin. cbn [fst snd].
    apply elem_of_zip_l in Hin as Hj. apply elem_of_zip_r in Hin as Hp.
    apply elem_of_seq in Hj. split; [lia|].
    intros ->. unfold L in Hp. rewrite !elem_of_app in Hp.
    destruct Hp as [[[Hp|Hp]|Hp]|Hp];
      by apply list_elem_of_fmap in Hp as (? & ? & _).
  - cbn [grid_of height_ratios nrows]. rewrite length_app, length_replicate.
    simpl. lia.
  - cbn [grid_of height_ratios nrows].
    rewrite lookup_app_r by (by rewrite length_replicate).
    by rewrite length_replicate, Nat.sub_diag.
  - intros j Hj. cbn [grid_of height_ratios nrows] in *.
    rewrite lookup_app_l by (by rewrite length_replicate).
    by apply lookup_replicate_2.
Qed.

(** C10. On any object, [plot] never fails on the palette: it raises neither
    [NameError] (palette not bound) nor [IndexError] (index out of range).
    On an object whose records have their ["values"] it returns; it has then
    asked for a palette exactly if it has drawn a trace, and the [k]-th trace
    drawn, counting confounds, physio signals and physio confounds in this
    order, has the colour at index [k] of the palette, with [k] below the
    palette's length. *)
Theorem palette_reads_are_safe obj figure :
  let n := length (confounds obj) + length (physio obj)
           + length (physio_confounds obj) in
  let palette := color_palette "husl" n in
  let out := run obj figure in
  (∀ v, out.1 ≠ Raise (NameError v))
  ∧ out.1 ≠ Raise IndexError
  ∧ (fresh obj →
     out.1 = Ok (default CurrentFigure figure)
     ∧ (omap event_palette (calls out.2) ≠ []
        ↔ omap event_trace (calls out.2) ≠ [])
     ∧ (∀ k name c, omap event_trace (calls out.2) !! k = Some (name, c) →
          k < length palette ∧ palette !! k = Some c)).
Proof.
  intros n palette out.
  destruct (plot_safe color_palette color_palette_length obj figure)
    as (r & st' & Hrun & Hr).
  split; [|split].
  - intros v. unfold out. rewrite Hrun. simpl. by destruct Hr as [-> | ->].
  - unfold out. rewrite Hrun. simpl. by destruct Hr as [-> | ->].
  - intros Hfresh. unfold out.
    rewrite (plot_fresh color_palette color_palette_length obj figure Hfresh).
    cbn [fst snd calls]. split; [done|].
    pose proof (color_palette_length "husl" n) as Hlen.
    rewrite palettes_plot_calls, traces_plot_calls by done.
    change (nsignals obj) with n. fold palette in Hlen |- *.
    set (names := PyDict.keys (confounds obj) ++ PyDict.keys (physio obj)
                  ++ PyDict.keys (physio_confounds obj)).
    assert (length names = n) as Hnames.
    { unfold names. rewrite !length_app, !length_keys. unfold n. lia. }
    assert (length (zip names palette) = n) as Hzip.
    { rewrite length_zip_with_l_eq; [done|]. by rewrite Hlen. }
    split; [split|].
    + intros Hp Ht. rewrite Ht in Hzip. simpl in Hzip.
      rewrite bool_decide_false in Hp by lia. done.
    + intros Ht Hp. case_bool_decide; [done|].
      apply Ht, nil_length_inv. lia.
    + intros k name c (x & y & [= <- <-] & _ & Hy)%lookup_zip_with_Some.
      split; [by eapply lookup_lt_Some | done].
Qed.

End Composition.

(** ** The small run *)

Lemma husl_length name n : length (Demo.husl name n) = n.
Proof. apply length_seq. Qed.

Lemma demo_init : __init__ Demo.read_csv Demo.loadtxt Demo.args = Ok Demo.obj.
Proof. vm_compute. reflexivity. Qed.

Lemma demo_loads :
  Forall2 (λ f a, Demo.loadtxt f = Ok a)
    (default [] (arg_spikes_files Demo.args))
    [{| shape := [2; 2]; flat := [1; 2; 3; 4]%Z |}].
Proof. repeat constructor. Qed.

Lemma palette_size_and_offsets_witness :
  omap event_palette (calls (plot Demo.husl Demo.obj None).2) = [4]
  ∧ (∃ c, Demo.husl "husl" 4 !! (2 + 0) = Some c
          ∧ omap event_trace (calls (plot Demo.husl Demo.obj None).2) !! (2 + 0)
            = Some ("resp", c)).
Proof.
  destruct (palette_size_and_offsets Demo.read_csv Demo.loadtxt Demo.husl
              husl_length Demo.args Demo.obj None demo_init)
    as (Hpalettes & _ & _ & Hphysio & _).
  split; [exact Hpalettes|].
  apply (Hphysio 0 "resp"). reflexivity.
Defined.

Lemma physio_traces_get_no_tr_witness :
  omap event_trace_tr (calls (plot Demo.husl Demo.obj None).2)
  = [("FD", Some 2%Z); ("DVARS", Some 2%Z); ("resp", None);
     ("HR_reg", Some 2%Z)].
Proof.
  destruct (physio_traces_get_no_tr Demo.read_csv Demo.loadtxt Demo.husl
              husl_length Demo.args Demo.obj None demo_init) as [_ Htrs].
  exact Htrs.
Defined.

Lemma physio_confound_cutoff_is_none_witness :
  default ∅ (arg_vlines Demo.args) !! "HR_reg" = Some 1%Z
  ∧ ∃ r, PyDict.get (physio_confounds Demo.obj) "HR_reg" = Some r
         ∧ record_get r "cutoff" = PyNone.
Proof.
  split; [reflexivity|].
  destruct (physio_confound_cutoff_is_none Demo.read_csv Demo.loadtxt Demo.husl
              husl_length Demo.args Demo.obj demo_init) as [Hrecord _].
  destruct (Hrecord "HR_reg") as (r & Hget & _ & Hcutoff).
  - compute_done.
  - by exists r.
Defined.

Lemma units_and_cutoff_lookup_witness :
  ∃ obj,
    __init__ Demo.read_csv Demo.loadtxt Demo.args = Ok obj
    ∧ (∃ r, PyDict.get (confounds obj) "FD" = Some r
            ∧ PyDict.get r "units" = Some (PyStr "mm")
            ∧ PyDict.get r "cutoff" = Some (PyNum 5%Z))
    ∧ (∃ r, PyDict.get (confounds obj) "DVARS" = Some r
            ∧ PyDict.get r "units" = Some PyNone
            ∧ PyDict.get r "cutoff" = Some PyNone).
Proof.
  destruct (units_and_cutoff_lookup Demo.read_csv Demo.loadtxt Demo.args
              (arg_confounds Demo.args)
              [{| shape := [2; 2]; flat := [1; 2; 3; 4]%Z |}] "FD"
              eq_refl demo_loads) as (obj & Hinit & HFD & _).
  destruct (units_and_cutoff_lookup Demo.read_csv Demo.loadtxt Demo.args
              (arg_confounds Demo.args)
              [{| shape := [2; 2]; flat := [1; 2; 3; 4]%Z |}] "DVARS"
              eq_refl demo_loads) as (obj' & Hinit' & HDVARS & _).
  assert (obj' = obj) as -> by congruence.
  exists obj. split; [exact Hinit|]. split.
  - apply HFD. compute_done.
  - apply HDVARS. compute_done.
Defined.

Lemma carpet_last_and_five_times_taller_witness :
  ∃ grid rows,
    omap event_panel (calls (plot Demo.husl Demo.obj None).2)
    = rows ++ [(nrows grid - 1, CarpetPanel)]
    ∧ height_ratios grid !! (nrows grid - 1) = Some 5.
Proof.
  destruct (carpet_last_and_five_times_taller Demo.read_csv Demo.loadtxt
              Demo.husl husl_length Demo.args Demo.obj None demo_init)
    as (grid & rows & _ & _ & Hpanels & _ & _ & Hfive & _).
  by exists grid, rows.
Defined.

Lemma spikes_in_file_order_witness :
  ∃ obj,
    __init__ Demo.read_csv Demo.loadtxt Demo.args = Ok obj
    ∧ omap event_spike (calls (plot Demo.husl obj None).2)
      = [({| shape := [2; 2]; flat := [1; 2; 3; 4]%Z |}, None, false)].
Proof.
  destruct (spikes_in_file_order Demo.read_csv Demo.loadtxt Demo.husl
              husl_length Demo.args (arg_confounds Demo.args)
              [{| shape := [2; 2]; flat := [1; 2; 3; 4]%Z |}] None
              eq_refl demo_loads) as (obj & Hinit & _ & Hspikes).
  by exists obj.
Defined.

Lemma palette_reads_are_safe_witness :
  (plot Demo.husl Demo.obj None).1 ≠ Raise IndexError
  ∧ (plot Demo.husl (stripped Demo.obj) None).1 ≠ Raise IndexError.
Proof.
  split.
  - apply (palette_reads_are_safe Demo.husl husl_length Demo.obj None).
  - apply (palette_reads_are_safe Demo.husl husl_length (stripped Demo.obj) None).
Defined.

(** ** Two defects *)

(** Away from one-row tables the values of a confound are the column as a
    flat list, in table order. *)
Lemma confound_values_flat {num img seg : Type}
    (read_csv : string → option (list string) → result (DataFrame num))
    (loadtxt : string → result (ndarray num))
    (args : @init_args num img seg) df arrays name col :
  resolve_confounds read_csv args = Ok (Some df) →
  Forall2 (λ f a, loadtxt f = Ok a) (default [] (arg_spikes_files args)) arrays →
  wf_frame df → NoDup (columns df) → (name, col) ∈ cols df →
  index_len df ≠ 1 →
  ∃ obj r,
    __init__ read_csv loadtxt args = Ok obj
    ∧ PyDict.keys (confounds obj) = columns df
    ∧ PyDict.get (confounds obj) name = Some r
    ∧ PyDict.get r "values" = Some (PyList (PyNum <$> col)).
Proof.
  intros Htable Hloads Hwf Hnd Hin Hlen.
  eexists _, _.
  split; [by apply (init_Ok read_csv loadtxt args (Some df) arrays)|].
  cbn [confounds]. split; [by apply (keys_fill_NoDup _ (Some df))|].
  split.
  - apply fill_get. apply list_elem_of_fmap. by exists (name, col).
  - simpl. by rewrite (column_values_vector df name col).
Qed.

(** C6 fails on a table with a single timepoint: [squeeze] drops both axes of
    the 1-by-1 array and [tolist] returns the cell itself, so the record's
    ["values"] is a number and not a list. *)
Theorem single_timepoint_values_is_a_scalar :
  ∃ obj,
    __init__ Demo.read_csv Demo.loadtxt Demo.one_row_args = Ok obj
    ∧ PyDict.get (confounds obj) "FD"
      = Some [("values", PyNum 5%Z); ("units", PyNone); ("cutoff", PyNone)]
    ∧ (∀ l, PyNum 5%Z ≠ PyList l).
Proof.
  eexists. split; [vm_compute; reflexivity|]. split; [reflexivity|done].
Qed.

(** C3 fails as soon as a trace is drawn: [plot] pops ["values"] out of the
    very records the object holds, which are left without it, and a second
    [plot] stops on the first record with a [KeyError]. *)
Theorem plot_pops_values_from_stored_records :
  __init__ Demo.read_csv Demo.loadtxt Demo.args = Ok Demo.obj
  ∧ PyDict.get (confounds Demo.obj) "FD"
    = Some [("values", PyList [PyNum 1%Z; PyNum 2%Z]);
            ("units", PyStr "mm"); ("cutoff", PyNum 5%Z)]
  ∧ (plot Demo.husl Demo.obj None).1 = Ok CurrentFigure
  ∧ PyDict.get (confounds (self (plot Demo.husl Demo.obj None).2)) "FD"
    = Some [("units", PyStr "mm"); ("cutoff", PyNum 5%Z)]
  ∧ (plot Demo.husl (self (plot Demo.husl Demo.obj None).2) None).1
    = Raise (KeyError "values").
Proof. repeat split; vm_compute; reflexivity. Qed.

(** * Further properties of [__init__] *)

Section Normalisation.
Context {num img seg : Type}.
Variable read_csv : string → option (list string) → result (DataFrame num).
Variable loadtxt : string → result (ndarray num).

Abbreviation init' := (__init__ (img:=img) (seg:=seg) read_csv loadtxt).
Implicit Types (args : @init_args num img seg) (obj : @fMRIPlot num img seg).
Implicit Types (df : DataFrame num) (table : option (DataFrame num)).

Lemma load_spikes_Raise files e (acc : list (@spike num)) pre f post :
  files = pre ++ f :: post →
  Forall (λ g, ∃ a, loadtxt g = Ok a) pre →
  loadtxt f = Raise e →
  load_spikes loadtxt files acc = Raise e.
Proof.
  intros -> Hpre Hf. revert acc.
  induction Hpre as [|g pre [a Hg] _ IH]; intros acc; simpl.
  - by rewrite Hf.
  - rewrite Hg. simpl. apply IH.
Qed.

Lemma load_spikes_Raise_inv files e (acc : list (@spike num)) :
  load_spikes loadtxt files acc = Raise e →
  ∃ f, f ∈ files ∧ loadtxt f = Raise e.
Proof.
  revert acc. induction files as [|f files IH]; intros acc; simpl; [done|].
  destruct (loadtxt f) as [a|e'] eqn:Hf; simpl.
  - intros (g & Hg & Hraise)%IH. exists g. split; [by right|done].
  - intros [= ->]. exists f. split; [by left|done].
Qed.

(** X1. When no table is passed and [conf_file] names a file that cannot be
    read, [__init__] raises the reader's exception. *)
Theorem unreadable_conf_file_is_fatal args f e :
  arg_confounds args = None →
  arg_conf_file args = Some f → f ≠ "" →
  read_csv f (arg_usecols args) = Raise e →
  init' args = Raise e.
Proof.
  intros Hnone Hfile Hne Hread. unfold __init__, resolve_confounds.
  rewrite Hnone, Hfile. simpl. rewrite bool_decide_true by done.
  by rewrite Hread.
Qed.

(** X2. With the confound table in hand, [__init__] raises the exception of
    the first spike file that cannot be read. *)
Theorem first_unreadable_spike_file_is_fatal args table pre f post e :
  resolve_confounds read_csv args = Ok table →
  default [] (arg_spikes_files args) = pre ++ f :: post →
  Forall (λ g, ∃ a, loadtxt g = Ok a) pre →
  loadtxt f = Raise e →
  init' args = Raise e.
Proof.
  intros Htable Hfiles Hpre Hf. unfold __init__. rewrite Htable. simpl.
  by rewrite (load_spikes_Raise _ e [] pre f post).
Qed.

(** X3. [__init__] raises nothing of its own: an exception it raises was
    raised by the reader of the confound file, called because no table was
    passed and [conf_file] is a non-empty name, or by the reader of one of
    the spike files. *)
Theorem init_raises_only_what_the_readers_raise args e :
  init' args = Raise e →
  (arg_confounds args = None
   ∧ ∃ f, arg_conf_file args = Some f ∧ f ≠ ""
          ∧ read_csv f (arg_usecols args) = Raise e)
  ∨ (∃ f, f ∈ default [] (arg_spikes_files args) ∧ loadtxt f = Raise e).
Proof.
  unfold __init__.
  destruct (resolve_confounds read_csv args) as [table|e'] eqn:Htable; simpl.
  - destruct (load_spikes loadtxt _ []) as [sp|e'] eqn:Hsp; simpl; [done|].
    intros [= ->]. right. by eapply load_spikes_Raise_inv.
  - intros [= ->]. left. unfold resolve_confounds in Htable.
    destruct (arg_confounds args) as [df|]; [done|]. split; [done|].
    destruct (arg_conf_file args) as [f|]; simpl in Htable; [|done].
    case_bool_decide; [|done]. exists f. split; [done|]. split; [done|].
    destruct (read_csv f (arg_usecols args)); simpl in Htable; [done|].
    by injection Htable as ->.
Qed.

(** X4. A table read from [conf_file] is normalised as if it had been
    passed as [confounds]: the two calls return the same object or raise the
    same exception. *)
Theorem table_from_file_like_table_passed args f df :
  arg_confounds args = None →
  arg_conf_file args = Some f → f ≠ "" →
  read_csv f (arg_usecols args) = Ok df →
  init' args = init' (with_confounds df args).
Proof.
  intros Hnone Hfile Hne Hread. unfold __init__, resolve_confounds.
  rewrite Hnone, Hfile. simpl. rewrite bool_decide_true by done.
  by rewrite Hread.
Qed.

Lemma elem_of_keys_get {V} (d : PyDict.t V) k :
  k ∈ PyDict.keys d ↔ is_Some (PyDict.get d k).
Proof.
  rewrite <- not_eq_None_Some, PyDictFacts.get_None_keys.
  split; [by intros ? ?|]. intros Hnn. by destruct (decide (k ∈ PyDict.keys d)).
Qed.

Lemma NoDup_keys_setitem {V} (d : PyDict.t V) k v :
  NoDup (PyDict.keys d) → NoDup (PyDict.keys (PyDict.setitem d k v)).
Proof.
  intros Hnd. destruct (decide (k ∈ PyDict.keys d)) as [Hin|Hnin].
  - by rewrite PyDictFacts.keys_setitem_present.
  - rewrite PyDictFacts.setitem_fresh by done. unfold PyDict.keys in *.
    rewrite fmap_app. apply NoDup_app. split; [done|]. split.
    + intros k' Hk' ->%list_elem_of_singleton. done.
    + apply NoDup_singleton.
Qed.

Lemma NoDup_keys_fill (mk : DataFrame num → string → @record num) table :
  NoDup (PyDict.keys (fill mk table)).
Proof.
  destruct table as [df|]; simpl; [|apply NoDup_nil_2].
  assert (∀ names (d : PyDict.t (@record num)),
            NoDup (PyDict.keys d) →
            NoDup (PyDict.keys
                     (foldl (λ d name, PyDict.setitem d name (mk df name))
                        d names))) as Hfold.
  { induction names as [|n names IH]; intros d Hd; simpl; [done|].
    by apply IH, NoDup_keys_setitem. }
  apply Hfold, NoDup_nil_2.
Qed.

Lemma elem_of_keys_fill (mk : DataFrame num → string → @record num) table name :
  name ∈ PyDict.keys (fill mk table) ↔ name ∈ table_columns table.
Proof.
  rewrite elem_of_keys_get. destruct table as [df|]; simpl.
  - rewrite foldl_setitem_get. case_decide; simpl.
    + split; [done|by eexists].
    + split; [by intros [? ?]|done].
  - split; [by intros [? ?]|by intros ?%elem_of_nil].
Qed.

(** X5. Within a category the names of the signals are distinct, whatever
    the labels of the table: a label that occurs several times gives one
    signal, and every label gives one. *)
Theorem signal_names_are_distinct args obj :
  init' args = Ok obj →
  (NoDup (PyDict.keys (confounds obj))
   ∧ NoDup (PyDict.keys (physio obj))
   ∧ NoDup (PyDict.keys (physio_confounds obj)))
  ∧ (∀ table name,
       resolve_confounds read_csv args = Ok table →
       name ∈ PyDict.keys (confounds obj) ↔ name ∈ table_columns table)
  ∧ (∀ name, name ∈ PyDict.keys (physio obj)
             ↔ name ∈ table_columns (arg_physio args))
  ∧ (∀ name, name ∈ PyDict.keys (physio_confounds obj)
             ↔ name ∈ table_columns (arg_physio_confounds args)).
Proof.
  intros (table & arrays & Htable & _ & -> & -> & -> & _)%init_inv.
  split; [repeat split; apply NoDup_keys_fill|].
  split; [|split; intros name; apply elem_of_keys_fill].
  intros table' name Htable'. assert (table' = table) as -> by congruence.
  apply elem_of_keys_fill.
Qed.

(** What [squeeze] and [tolist] make of a column with a label of its own. *)
Lemma column_values_unique df name col :
  wf_frame df → NoDup (columns df) → (name, col) ∈ cols df →
  column_values df name
  = match col with [x] => PyNum x | _ => PyList (PyNum <$> col) end.
Proof.
  intros Hwf Hnd Hin.
  assert (length col = index_len df) as Hcol.
  { unfold wf_frame in Hwf. rewrite Forall_forall in Hwf. by apply (Hwf _ Hin). }
  destruct col as [|x [|y col]].
  - apply (column_values_vector df name []); try done. simpl in Hcol. lia.
  - by apply column_values_scalar.
  - apply (column_values_vector df name (x :: y :: col)); try done.
    simpl in Hcol. lia.
Qed.

(** X6. In every category, for a table whose labels are distinct, the
    ["values"] of the record of a column is the list of the column's cells in
    order; but for a column of exactly one cell it is that cell, not a
    list. *)
Theorem values_of_a_column args obj cat df name col :
  init' args = Ok obj →
  match cat with
  | Confounds => resolve_confounds read_csv args = Ok (Some df)
  | Physio => arg_physio args = Some df
  | PhysioConfounds => arg_physio_confounds args = Some df
  end →
  wf_frame df → NoDup (columns df) → (name, col) ∈ cols df →
  ∃ r, PyDict.get (signals cat obj) name = Some r
       ∧ PyDict.get r "values"
         = Some (match col with
                 | [x] => PyNum x
                 | _ => PyList (PyNum <$> col)
                 end).
Proof.
  intros (table & arrays & Htable & _ & Hc & Hp & Hq & _)%init_inv
    Hcat Hwf Hnd Hin.
  assert (name ∈ columns df) as Hname.
  { apply list_elem_of_fmap. by exists (name, col). }
  destruct cat; simpl.
  - assert (table = Some df) as -> by congruence.
    rewrite Hc. eexists. split; [by apply fill_get|].
    simpl. by rewrite (column_values_unique df name col).
  - rewrite Hp, Hcat. eexists. split; [by apply fill_get|].
    simpl. by rewrite (column_values_unique df name col).
  - rewrite Hq, Hcat. eexists. split; [by apply fill_get|].
    simpl. by rewrite (column_values_unique df name col).
Qed.

End Normalisation.

(** * Further properties of [plot] *)

Section Rendering.
Context {num color img seg : Type}.
Variable read_csv : string → option (list string) → result (DataFrame num).
Variable loadtxt : string → result (ndarray num).
Variable color_palette : string → nat → list color.
Hypothesis color_palette_length :
  ∀ name n, length (color_palette name n) = n.

Abbreviation init'' := (__init__ (img:=img) (seg:=seg) read_csv loadtxt).
Abbreviation run' := (plot (img:=img) (seg:=seg) color_palette).
Implicit Types (args : @init_args num img seg) (obj : @fMRIPlot num img seg).
Implicit Types (figure : option Figure) (grid : GridSpec).
Implicit Types (items : list (string * @record num)) (cs : list color).

Ltac loop_induction :=
  let IH := fresh "IH" in
  let name := fresh "name" in
  let kw := fresh "kw" in
  let c := fresh "c" in
  let cs' := fresh "cs" in
  match goal with
  | |- context [trace_calls _ _ ?r ?items ?cs] =>
      revert r cs; induction items as [|[name kw] items IH]; intros r [|c cs'];
      simpl; try done; intros; rewrite ?IH by congruence; try done
  | |- context [spike_calls _ _ ?r ?items] =>
      revert r; induction items as [|[[? ?] ?] items IH]; intros r;
      simpl; rewrite ?IH; try done
  end.

Lemma init_fields args obj :
  init'' args = Ok obj →
  timeseries obj = arg_timeseries args
  ∧ segments obj = arg_segments args
  ∧ tr obj = arg_tr args
  ∧ nskip obj = arg_nskip args
  ∧ sort_carpet obj = arg_sort_carpet args
  ∧ paired_carpet obj = arg_paired_carpet args.
Proof.
  unfold __init__.
  destruct (resolve_confounds read_csv args) as [table|e]; [|done]. simpl.
  destruct (load_spikes loadtxt _ []) as [sp|e]; [|done]. simpl.
  by intros [= <-].
Qed.

(** X7. The last call of [plot] is the carpet renderer's, on the last cell of
    the grid, with the imaging data, the segments, the TR, the sort flag and
    the skip count [__init__] was given, and with the colour map ["paired"]
    if the paired flag is set, [None] if not. *)
Theorem carpet_call_arguments args obj figure :
  init'' args = Ok obj →
  ∃ grid,
    last (calls (run' obj figure).2)
    = Some (plot_carpet (arg_timeseries args) (arg_segments args)
              (mk_SubplotSpec grid (nrows grid * ncols grid - 1))
              (arg_tr args) (arg_sort_carpet args) (arg_nskip args)
              (if arg_paired_carpet args then Some "paired" else None))
    ∧ Forall (λ gs, gridspec gs = grid)
        (omap event_cell (calls (run' obj figure).2)).
Proof.
  intros Hinit. exists (grid_of obj).
  rewrite (run_init read_csv loadtxt color_palette color_palette_length
             args obj figure Hinit).
  cbn [snd calls]. split; [|apply cells_plot_calls].
  apply init_fields in Hinit as (<- & <- & <- & <- & <- & <-).
  unfold plot_calls. cbn zeta. rewrite !app_assoc, last_snoc.
  cbn [grid_of nrows ncols]. by rewrite Nat.mul_1_r.
Qed.

Lemma gcf_spike_calls grid t r (items : list (@spike num)) :
  omap event_gcf (spike_calls (color:=color) (img:=img) (seg:=seg) grid t r items)
  = [].
Proof. loop_induction. Qed.

Lemma gcf_trace_calls grid t r items cs :
  omap event_gcf (trace_calls (img:=img) (seg:=seg) grid t r items cs) = [].
Proof. loop_induction. Qed.

(** X8. [plot] starts by setting seaborn's style to ["whitegrid"] and its
    context to ["paper"] with font scale 0.8; it asks pyplot for the current
    figure once if it is given no figure and never if it is given one; and it
    returns the figure it drew on. *)
Theorem style_and_figure args obj figure :
  init'' args = Ok obj →
  take 2 (calls (run' obj figure).2)
  = [sns_set_style "whitegrid"; sns_set_context "paper" (8 # 10)]
  ∧ omap event_gcf (calls (run' obj figure).2)
    = match figure with None => [()] | Some _ => [] end
  ∧ (run' obj figure).1
    = Ok (match figure with None => CurrentFigure | Some f => f end).
Proof.
  intros Hinit.
  rewrite (run_init read_csv loadtxt color_palette color_palette_length
             args obj figure Hinit).
  cbn [fst snd calls]. split; [done|]. split; [|by destruct figure].
  unfold plot_calls. cbn zeta. rewrite !omap_app.
  rewrite gcf_spike_calls, !gcf_trace_calls.
  by destruct figure, (bool_decide (0 < nsignals obj)).
Qed.

Lemma spike_trs_spike_calls grid t r (items : list (@spike num)) :
  omap event_spike_tr
    (spike_calls (color:=color) (img:=img) (seg:=seg) grid t r items)
  = replicate (length items) t.
Proof. loop_induction. Qed.

Lemma spike_trs_trace_calls grid t r items cs :
  omap event_spike_tr (trace_calls (img:=img) (seg:=seg) grid t r items cs) = [].
Proof. loop_induction. Qed.

(** X9. Every spike panel is drawn with the TR [__init__] was given. *)
Theorem spikes_drawn_with_the_tr args obj figure :
  init'' args = Ok obj →
  omap event_spike_tr (calls (run' obj figure).2)
  = replicate (length (spikes obj)) (arg_tr args).
Proof.
  intros Hinit.
  rewrite (run_init read_csv loadtxt color_palette color_palette_length
             args obj figure Hinit).
  cbn [snd calls].
  apply init_fields in Hinit as (_ & _ & <- & _).
  unfold plot_calls. cbn zeta. rewrite !omap_app.
  rewrite spike_trs_spike_calls, !spike_trs_trace_calls.
  destruct figure, (bool_decide (0 < nsignals obj)); simpl;
    by rewrite app_nil_r.
Qed.

Lemma args_spike_calls grid t r (items : list (@spike num)) :
  omap event_trace_args
    (spike_calls (color:=color) (img:=img) (seg:=seg) grid t r items)
  = [].
Proof. loop_induction. Qed.

Lemma args_trace_calls grid t r items cs :
  length cs = length items →
  omap event_trace_args (trace_calls (img:=img) (seg:=seg) grid t r items cs)
  = (λ e, (e.1, record_get e.2 "values", popped e.2)) <$> items.
Proof. loop_induction. Qed.

Lemma traces_of_fill (mk : DataFrame num → string → @record num)
    (trace : DataFrame num → string → string * pyval num * @record num) table :
  (∀ df name,
     (name, record_get (mk df name) "values", popped (mk df name))
     = trace df name) →
  (λ e, (e.1, record_get e.2 "values", popped e.2)) <$> fill mk table
  = table_traces trace table (fill mk table).
Proof.
  intros Hmk. destruct table as [df|]; [|done].
  unfold table_traces, PyDict.keys. rewrite <- list_fmap_compose.
  apply Forall_fmap_ext, Forall_forall. intros [name r] Hin.
  apply fill_entries in Hin as (df' & [= <-] & _ & Hr). simpl in *.
  by rewrite Hr, Hmk.
Qed.

(** X10. What the trace renderer gets for a signal: its time series is the
    ["values"] built from the column and its keyword arguments are the other
    fields of the record, [units] and [cutoff] for a confound and [units]
    alone for a physio signal or a physio confound, with the values looked
    up in the two mappings.  The traces come in the order confounds, physio,
    physio confounds. *)
Theorem traces_get_values_units_cutoff args obj table figure :
  init'' args = Ok obj →
  resolve_confounds read_csv args = Ok table →
  let units := default ∅ (arg_units args) in
  let vlines := default ∅ (arg_vlines args) in
  omap event_trace_args (calls (run' obj figure).2)
  = table_traces (confound_trace units vlines) table (confounds obj)
    ++ table_traces (physio_trace units) (arg_physio args) (physio obj)
    ++ table_traces (physio_trace units) (arg_physio_confounds args)
         (physio_confounds obj).
Proof.
  intros Hinit Htable units vlines.
  rewrite (run_init read_csv loadtxt color_palette color_palette_length
             args obj figure Hinit).
  cbn [snd calls].
  pose proof (color_palette_length "husl" (nsignals obj)) as Hlen.
  set (pal := color_palette "husl" (nsignals obj)) in *.
  unfold nsignals in Hlen.
  unfold plot_calls. cbn zeta. rewrite !omap_app.
  rewrite args_spike_calls.
  do 3 (rewrite args_trace_calls
          by (rewrite ?length_take, ?length_drop; lia)).
  apply init_inv in Hinit
    as (table' & arrays & Htable' & _ & Hc & Hp & Hq & _).
  assert (table' = table) as -> by congruence.
  rewrite Hc, Hp, Hq.
  rewrite (traces_of_fill _ (confound_trace units vlines)) by done.
  rewrite !(traces_of_fill _ (physio_trace units)) by done.
  destruct figure, (bool_decide (0 < _)); simpl; by rewrite app_nil_r.
Qed.

Lemma get_remove_ne {V} (d : PyDict.t V) k k' :
  k ≠ k' → PyDict.get (PyDict.remove d k) k' = PyDict.get d k'.
Proof.
  intros Hne. induction d as [|[k0 v0] d IH]; simpl; [done|].
  destruct (decide (k0 = k)) as [->|Hk0]; simpl.
  - by rewrite decide_False by done.
  - by rewrite IH.
Qed.

Lemma get_Some_elem {V} (d : PyDict.t V) k v :
  PyDict.get d k = Some v → (k, v) ∈ d.
Proof.
  induction d as [|[k0 v0] d IH]; simpl; [done|].
  case_decide; subst.
  - intros [= ->]. by left.
  - intros ?. right. by apply IH.
Qed.

Lemma get_strip (d : PyDict.t (@record num)) name :
  PyDict.get (strip d) name = popped <$> PyDict.get d name.
Proof.
  induction d as [|[k0 r0] d IH]; simpl; [done|].
  case_decide; [done|]. apply IH.
Qed.

Lemma keys_strip (d : PyDict.t (@record num)) :
  PyDict.keys (strip d) = PyDict.keys d.
Proof.
  unfold strip, PyDict.keys. rewrite <- list_fmap_compose.
  by apply list_fmap_ext.
Qed.

Lemma signals_stripped cat obj :
  signals cat (stripped obj) = strip (signals cat obj).
Proof. by destruct cat. Qed.

(** The records [__init__] builds have ["values"] once. *)
Lemma init_popped_no_values args obj cat e :
  init'' args = Ok obj → e ∈ signals cat obj →
  PyDict.get (popped e.2) "values" = None.
Proof.
  intros (table & arrays & _ & _ & Hc & Hp & Hq & _)%init_inv He.
  destruct cat; simpl in He; rewrite ?Hc, ?Hp, ?Hq in He;
    apply fill_entries in He as (df & _ & _ & ->); done.
Qed.

(** X11. [plot] changes nothing of the object but the records of the
    signals, and of those it changes one thing: every record loses its
    ["values"].  The names and their order, the other fields of each record,
    the spikes and the remaining attributes are as before. *)
Theorem plot_touches_only_values args obj figure :
  init'' args = Ok obj →
  let obj' := self (run' obj figure).2 in
  (timeseries obj' = timeseries obj ∧ segments obj' = segments obj
   ∧ tr obj' = tr obj ∧ spikes obj' = spikes obj ∧ nskip obj' = nskip obj
   ∧ sort_carpet obj' = sort_carpet obj
   ∧ paired_carpet obj' = paired_carpet obj)
  ∧ (∀ cat, PyDict.keys (signals cat obj') = PyDict.keys (signals cat obj))
  ∧ (∀ cat name r,
       PyDict.get (signals cat obj) name = Some r →
       ∃ r', PyDict.get (signals cat obj') name = Some r'
             ∧ PyDict.get r' "values" = None
             ∧ ∀ key, key ≠ "values" → PyDict.get r' key = PyDict.get r key).
Proof.
  intros Hinit obj'. unfold obj'.
  rewrite (run_init read_csv loadtxt color_palette color_palette_length
             args obj figure Hinit).
  cbn [snd self]. split; [done|]. split.
  - intros cat. by rewrite signals_stripped, keys_strip.
  - intros cat name r Hget. exists (popped r).
    rewrite signals_stripped, get_strip, Hget. split; [done|]. split.
    + apply (init_popped_no_values args obj cat (name, r) Hinit).
      by apply get_Some_elem.
    + intros key Hkey. by apply get_remove_ne.
Qed.

Lemma signals_loop_Ok_inv cat grid (palette : option (list color)) offset
    items i g g' st st' :
  signals_loop (img:=img) (seg:=seg) cat grid palette offset i items g st
  = (Ok g', st') →
  Forall (λ e, has_values e.2) items.
Proof.
  revert i g st. induction items as [|[name kw] items IH]; intros i g st;
    [by constructor|].
  cbn [signals_loop]. unfold mbind, M_bind, lift, PyDict.pop.
  destruct (PyDict.get kw "values") as [v|] eqn:Hv; [|done].
  cbn [modify_self self calls].
  destruct (grid_getitem grid g) as [gs|e]; [|done].
  cbn [get_self self calls].
  destruct (palette_getitem palette (offset + i)) as [c|e]; [|done].
  cbn [call self calls]. intros Hrun%IH. constructor; [by exists v|done].
Qed.

Lemma signals_set_signals_ne cat cat' d (s : @fMRIPlot num img seg) :
  cat' ≠ cat → signals cat' (set_signals cat d s) = signals cat' s.
Proof. by destruct cat, cat'. Qed.

(** A trace loop leaves the other two dictionaries alone, however it ends. *)
Lemma signals_loop_frame cat cat' grid (palette : option (list color)) offset
    items i g r st st' :
  cat' ≠ cat →
  signals_loop (img:=img) (seg:=seg) cat grid palette offset i items g st
  = (r, st') →
  signals cat' (self st') = signals cat' (self st).
Proof.
  intros Hne. revert i g st.
  induction items as [|[name kw] items IH]; intros i g st.
  - by intros [= _ <-].
  - cbn [signals_loop]. unfold mbind, M_bind, lift, PyDict.pop.
    destruct (PyDict.get kw "values") as [v|]; [|by intros [= _ <-]].
    cbn [modify_self self calls].
    destruct (grid_getitem grid g) as [gs|e];
      [|intros [= _ <-]; by apply signals_set_signals_ne].
    cbn [get_self self calls].
    destruct (palette_getitem palette (offset + i)) as [c|e];
      [|intros [= _ <-]; by apply signals_set_signals_ne].
    cbn [call self calls]. intros ->%IH. cbn [self].
    by apply signals_set_signals_ne.
Qed.

(** If [plot] returns, every record had its ["values"]. *)
Lemma plot_Ok_fresh obj figure f :
  (run' obj figure).1 = Ok f → fresh obj.
Proof.
  unfold plot, plot_body.
  unfold mbind, M_bind, mret, M_ret. cbn [call get_self self calls].
  assert (∀ st : @state num color img seg,
            (match figure with
             | Some f => λ st, (Ok f, st)
             | None => λ st, match call plt_gcf st with
                             | (Ok _, st') => (Ok CurrentFigure, st')
                             | (Raise e, st') => (Raise e, st')
                             end
             end) st
            = (Ok (default CurrentFigure figure),
               {| self := self st;
                  calls := calls st ++ match figure with
                                       | None => [plt_gcf]
                                       | Some _ => []
                                       end |})) as ->.
  { intros [s c]. destruct figure; simpl; by rewrite ?app_nil_r. }
  cbn [self calls]. unfold lift at 1. rewrite GridSpec_new_grid_of.
  change 0%Z with (Z.of_nat 0).
  rewrite spikes_loop_Ok by (simpl; lia). cbn [self calls].
  destruct (PyDict.truthy (confounds obj) || PyDict.truthy (physio obj)
            || PyDict.truthy (physio_confounds obj)); cbn [self calls].
  all: match goal with |- context [signals_loop Confounds ?g ?p ?o ?i ?l ?z ?st] =>
         destruct (signals_loop Confounds g p o i l z st) as [[g1|e1] st1] eqn:H1
       end; [|done].
  all: pose proof (signals_loop_frame Confounds Physio _ _ _ _ _ _ _ _ _
                     ltac:(done) H1) as HfP;
       pose proof (signals_loop_frame Confounds PhysioConfounds _ _ _ _ _ _ _
                     _ _ ltac:(done) H1) as HfQ;
       cbn [signals self] in HfP, HfQ.
  all: destruct (signals_loop Physio _ _ _ _ (physio (self st1)) g1 st1)
         as [[g2|e2] st2] eqn:H2; [|done].
  all: pose proof (signals_loop_frame Physio PhysioConfounds _ _ _ _ _ _ _ _
                     _ ltac:(done) H2) as HfQ';
       cbn [signals self] in HfQ'.
  all: destruct (signals_loop PhysioConfounds _ _ _ _
                   (physio_confounds (self st2)) g2 st2)
         as [[g3|e3] st3] eqn:H3; [|done].
  all: intros _ cat e He; apply signals_loop_Ok_inv in H1, H2, H3.
  all: rewrite HfP in H2; rewrite HfQ', HfQ in H3.
  all: destruct cat; simpl in He;
       [ by apply (proj1 (Forall_forall _ _) H1)
       | by apply (proj1 (Forall_forall _ _) H2)
       | by apply (proj1 (Forall_forall _ _) H3) ].
Qed.


Lemma stripped_not_fresh args obj :
  init'' args = Ok obj →
  0 < length (confounds obj) + length (physio obj)
      + length (physio_confounds obj) →
  ¬ fresh (stripped obj).
Proof.
  intros Hinit Hn Hfresh.
  assert (∃ cat e, e ∈ signals cat obj) as (cat & [name r] & He).
  { destruct (confounds obj) as [|e ?] eqn:Hc;
      [|exists Confounds, e; simpl; rewrite Hc; by left].
    destruct (physio obj) as [|e ?] eqn:Hp;
      [|exists Physio, e; simpl; rewrite Hp; by left].
    destruct (physio_confounds obj) as [|e ?] eqn:Hq;
      [|exists PhysioConfounds, e; simpl; rewrite Hq; by left].
    simpl in Hn. lia. }
  pose proof (init_popped_no_values args obj cat (name, r) Hinit He) as Hnone.
  destruct (Hfresh cat (name, popped r)) as [v Hv].
  - rewrite signals_stripped. apply list_elem_of_fmap. by exists (name, r).
  - simpl in *. congruence.
Qed.

(** X13. A composition with at least one confound, physio signal or physio
    confound can be plotted once: a second [plot] raises
    [KeyError("values")]. *)
Theorem second_plot_raises_KeyError args obj figure figure' :
  init'' args = Ok obj →
  0 < length (confounds obj) + length (physio obj)
      + length (physio_confounds obj) →
  (run' (self (run' obj figure).2) figure').1 = Raise (KeyError "values").
Proof.
  intros Hinit Hn.
  rewrite (run_init read_csv loadtxt color_palette color_palette_length
             args obj figure Hinit).
  cbn [snd self].
  destruct (plot_safe color_palette color_palette_length (stripped obj) figure')
    as (r & st' & Hrun & [-> | ->]).
  - exfalso. apply (stripped_not_fresh args obj Hinit Hn).
    apply (plot_Ok_fresh (stripped obj) figure'
             (default CurrentFigure figure')).
    by rewrite Hrun.
  - by rewrite Hrun.
Qed.

(** X14. With no confounds (no table, and no file name or an empty one), no
    physio table, no physio-confound table and no spike files, the figure is
    the carpet alone, on a grid of one row of height ratio 5: [plot] makes
    the two style calls, asks for the current figure if it has none, calls no
    palette and draws the carpet.  A name passed as [physio_file] or
    [physio_conf_file] changes nothing.  The object is left as it was. *)
Theorem carpet_only_figure args obj figure :
  init'' args = Ok obj →
  arg_confounds args = None →
  truthy_str (arg_conf_file args) = false →
  arg_physio args = None →
  arg_physio_confounds args = None →
  default [] (arg_spikes_files args) = [] →
  run' obj figure
  = (Ok (default CurrentFigure figure),
     {| self := obj;
        calls :=
          [sns_set_style "whitegrid"; sns_set_context "paper" (8 # 10)]
          ++ match figure with None => [plt_gcf] | Some _ => [] end
          ++ [plot_carpet (arg_timeseries args) (arg_segments args)
                (mk_SubplotSpec (mk_GridSpec 1 1 0 (5 # 100) [5]) 0)
                (arg_tr args) (arg_sort_carpet args) (arg_nskip args)
                (if arg_paired_carpet args then Some "paired" else None)] |}).
Proof.
  intros Hinit Hnone Hfile Hp Hq Hs.
  rewrite (run_init read_csv loadtxt color_palette color_palette_length
             args obj figure Hinit).
  pose proof (init_fields args obj Hinit) as (Hts & Hseg & Htr & Hsk & Hso & Hpa).
  apply init_inv in Hinit
    as (table & arrays & Htable & Hloads & Hc & Hp' & Hq' & Hs' & _).
  unfold resolve_confounds in Htable. rewrite Hnone, Hfile in Htable.
  injection Htable as <-.
  rewrite Hs in Hloads. apply Forall2_nil_inv_l in Hloads as ->.
  rewrite Hp in Hp'. rewrite Hq in Hq'. simpl in Hc, Hp', Hq', Hs'.
  destruct obj as [ts sg t c p q sp sk so pa]. simpl in *. subst.
  unfold stripped, plot_calls, nsignals, grid_of. simpl.
  by destruct figure.
Qed.

End Rendering.

(** ** The small run, continued *)

Lemma demo_file_table :
  resolve_confounds Demo.read_table Demo.file_args
  = Ok (Some {| index_len := 2;
                cols := [("FD", [1; 2]%Z); ("DVARS", [3; 4]%Z)] |}).
Proof. reflexivity. Qed.

Lemma unreadable_conf_file_is_fatal_witness :
  __init__ Demo.read_csv Demo.loadtxt Demo.file_args
  = Raise (OSError "confounds.tsv").
Proof.
  apply (unreadable_conf_file_is_fatal Demo.read_csv Demo.loadtxt
           Demo.file_args "confounds.tsv" (OSError "confounds.tsv"));
    [reflexivity | reflexivity | done | reflexivity].
Defined.

Lemma first_unreadable_spike_file_is_fatal_witness :
  __init__ Demo.read_table Demo.loadtxt Demo.file_args
  = Raise (OSError "missing.txt").
Proof.
  apply (first_unreadable_spike_file_is_fatal Demo.read_table Demo.loadtxt
           Demo.file_args _ ["spikes.txt"] "missing.txt" []
           (OSError "missing.txt") demo_file_table).
  - reflexivity.
  - repeat constructor. by eexists.
  - reflexivity.
Defined.

Lemma init_raises_only_what_the_readers_raise_witness :
  (arg_confounds Demo.file_args = None
   ∧ ∃ f, arg_conf_file Demo.file_args = Some f ∧ f ≠ ""
          ∧ Demo.read_table f (arg_usecols Demo.file_args)
            = Raise (OSError "missing.txt"))
  ∨ (∃ f, f ∈ default [] (arg_spikes_files Demo.file_args)
          ∧ Demo.loadtxt f = Raise (OSError "missing.txt")).
Proof.
  apply (init_raises_only_what_the_readers_raise Demo.read_table Demo.loadtxt
           Demo.file_args (OSError "missing.txt")).
  vm_compute. reflexivity.
Defined.

Lemma table_from_file_like_table_passed_witness :
  __init__ Demo.read_table Demo.loadtxt Demo.file_args
  = __init__ Demo.read_table Demo.loadtxt
      (with_confounds
         {| index_len := 2; cols := [("FD", [1; 2]%Z); ("DVARS", [3; 4]%Z)] |}
         Demo.file_args).
Proof.
  apply (table_from_file_like_table_passed Demo.read_table Demo.loadtxt
           Demo.file_args "confounds.tsv");
    [reflexivity | reflexivity | done | reflexivity].
Defined.

Lemma signal_names_are_distinct_witness :
  NoDup (PyDict.keys (confounds Demo.obj))
  ∧ ("FD" ∈ PyDict.keys (confounds Demo.obj)
     ↔ "FD" ∈ table_columns (arg_confounds Demo.args)).
Proof.
  destruct (signal_names_are_distinct Demo.read_csv Demo.loadtxt Demo.args
              Demo.obj demo_init) as ((Hnd & _ & _) & Hin & _).
  split; [exact Hnd|]. apply Hin. reflexivity.
Defined.

Lemma values_of_a_column_witness :
  (∃ r, PyDict.get (physio Demo.obj) "resp" = Some r
        ∧ PyDict.get r "values"
          = Some (PyList [PyNum 7%Z; PyNum 8%Z; PyNum 9%Z])).
Proof.
  apply (values_of_a_column Demo.read_csv Demo.loadtxt Demo.args Demo.obj
           Physio {| index_len := 3; cols := [("resp", [7; 8; 9]%Z)] |}
           "resp" [7; 8; 9]%Z demo_init).
  - reflexivity.
  - repeat constructor.
  - compute_done.
  - by left.
Defined.

Lemma carpet_call_arguments_witness :
  ∃ grid,
    last (calls (plot Demo.husl Demo.obj None).2)
    = Some (plot_carpet () ()
              (mk_SubplotSpec grid (nrows grid * ncols grid - 1))
              (Some 2%Z) true 4%Z None).
Proof.
  destruct (carpet_call_arguments Demo.read_csv Demo.loadtxt Demo.husl
              husl_length Demo.args Demo.obj None demo_init)
    as (grid & Hlast & _).
  by exists grid.
Defined.

Lemma style_and_figure_witness :
  omap event_gcf (calls (plot Demo.husl Demo.obj None).2) = [()]
  ∧ (plot Demo.husl Demo.obj (Some (UserFigure 3))).1 = Ok (UserFigure 3).
Proof.
  split.
  - apply (style_and_figure Demo.read_csv Demo.loadtxt Demo.husl husl_length
             Demo.args Demo.obj None demo_init).
  - apply (style_and_figure Demo.read_csv Demo.loadtxt Demo.husl husl_length
             Demo.args Demo.obj (Some (UserFigure 3)) demo_init).
Defined.

Lemma spikes_drawn_with_the_tr_witness :
  omap event_spike_tr (calls (plot Demo.husl Demo.obj None).2) = [Some 2%Z].
Proof.
  apply (spikes_drawn_with_the_tr Demo.read_csv Demo.loadtxt Demo.husl
           husl_length Demo.args Demo.obj None demo_init).
Defined.

Lemma traces_get_values_units_cutoff_witness :
  omap event_trace_args (calls (plot Demo.husl Demo.obj None).2)
  = [("FD", PyList [PyNum 1%Z; PyNum 2%Z],
      [("units", PyStr "mm"); ("cutoff", PyNum 5%Z)]);
     ("DVARS", PyList [PyNum 3%Z; PyNum 4%Z],
      [("units", PyNone); ("cutoff", PyNone)]);
     ("resp", PyList [PyNum 7%Z; PyNum 8%Z; PyNum 9%Z], [("units", PyNone)]);
     ("HR_reg", PyList [PyNum 5%Z; PyNum 6%Z], [("units", PyNone)])].
Proof.
  apply (traces_get_values_units_cutoff Demo.read_csv Demo.loadtxt Demo.husl
           husl_length Demo.args Demo.obj (arg_confounds Demo.args) None
           demo_init eq_refl).
Defined.

Lemma plot_touches_only_values_witness :
  spikes (self (plot Demo.husl Demo.obj None).2) = spikes Demo.obj
  ∧ PyDict.keys (confounds (self (plot Demo.husl Demo.obj None).2))
    = PyDict.keys (confounds Demo.obj).
Proof.
  destruct (plot_touches_only_values Demo.read_csv Demo.loadtxt Demo.husl
              husl_length Demo.args Demo.obj None demo_init)
    as ((_ & _ & _ & Hspikes & _) & Hkeys & _).
  split; [exact Hspikes | exact (Hkeys Confounds)].
Defined.


Lemma second_plot_raises_KeyError_witness :
  (plot Demo.husl (self (plot Demo.husl Demo.obj None).2) None).1
  = Raise (KeyError "values").
Proof.
  apply (second_plot_raises_KeyError Demo.read_csv Demo.loadtxt Demo.husl
           husl_length Demo.args Demo.obj None None demo_init).
  simpl. lia.
Defined.

Lemma demo_bare_init :
  __init__ Demo.read_csv Demo.loadtxt Demo.bare_args
  = Ok (mk_fMRIPlot () () (Some 2%Z) [] [] [] [] 4 true true).
Proof. reflexivity. Qed.

Lemma carpet_only_figure_witness :
  calls (plot Demo.husl (mk_fMRIPlot () () (Some 2%Z) [] [] [] [] 4 true true)
           None).2
  = [sns_set_style "whitegrid"; sns_set_context "paper" (8 # 10); plt_gcf;
     plot_carpet () () (mk_SubplotSpec (mk_GridSpec 1 1 0 (5 # 100) [5]) 0)
       (Some 2%Z) true 4%Z (Some "paired")].
Proof.
  rewrite (carpet_only_figure Demo.read_csv Demo.loadtxt Demo.husl husl_length
             Demo.bare_args _ None demo_bare_init); reflexivity.
Defined.

(** * The rows of the figure *)

Section Rows.
Context {num color img seg : Type}.
Variable read_csv : string → option (list string) → result (DataFrame num).
Variable loadtxt : string → result (ndarray num).
Variable color_palette : string → nat → list color.
Hypothesis color_palette_length :
  ∀ name n, length (color_palette name n) = n.

Implicit Types (args : @init_args num img seg) (obj : @fMRIPlot num img seg).

Lemma keys_setitem {V} (d : PyDict.t V) k v :
  PyDict.keys (PyDict.setitem d k v)
  = if decide (k ∈ PyDict.keys d) then PyDict.keys d else PyDict.keys d ++ [k].
Proof.
  case_decide.
  - by apply PyDictFacts.keys_setitem_present.
  - rewrite PyDictFacts.setitem_fresh by done. unfold PyDict.keys.
    by rewrite fmap_app.
Qed.

(** The names of a category are the labels of its table, each once, in the
    order of their first occurrence. *)
Lemma keys_fill_first_occurrences
    (mk : DataFrame num → string → @record num) table :
  PyDict.keys (fill mk table) = first_occurrences (table_columns table).
Proof.
  destruct table as [df|]; [|done]. unfold fill, first_occurrences.
  simpl table_columns.
  assert (∀ names (d : PyDict.t (@record num)),
            PyDict.keys
              (foldl (λ d name, PyDict.setitem d name (mk df name)) d names)
            = foldl (λ seen label,
                       if decide (label ∈ seen) then seen else seen ++ [label])
                (PyDict.keys d) names) as Hfold.
  { induction names as [|n names IH]; intros d; simpl; [done|].
    by rewrite IH, keys_setitem. }
  apply Hfold.
Qed.

Lemma first_occurrences_NoDup (labels : list string) :
  NoDup labels → first_occurrences labels = labels.
Proof.
  unfold first_occurrences. intros Hnd.
  assert (∀ seen, (∀ x, x ∈ labels → x ∉ seen) →
            foldl (λ seen label,
                     if decide (label ∈ seen) then seen else seen ++ [label])
              seen labels
            = seen ++ labels) as Hfold.
  { induction Hnd as [|x l Hx Hnd IH]; intros seen Hfresh; simpl.
    - by rewrite app_nil_r.
    - rewrite decide_False by (apply Hfresh; by left).
      rewrite IH; [by rewrite <- app_assoc|].
      intros y Hy. rewrite elem_of_app, list_elem_of_singleton.
      intros [Hin| ->]; [|done]. by apply (Hfresh y); [right|]. }
  by rewrite Hfold by (intros; apply not_elem_of_nil).
Qed.

Lemma first_occurrences_distinct (labels : list string) :
  NoDup (first_occurrences labels)
  ∧ ∀ x, x ∈ first_occurrences labels ↔ x ∈ labels.
Proof.
  unfold first_occurrences.
  assert (∀ seen, NoDup seen →
            let out := foldl (λ seen label,
                                if decide (label ∈ seen) then seen
                                else seen ++ [label]) seen labels in
            NoDup out ∧ ∀ x, x ∈ out ↔ x ∈ seen ∨ x ∈ labels) as Hfold.
  { induction labels as [|l labels IH]; intros seen Hnd; simpl.
    - split; [done|]. intros x. rewrite elem_of_nil. tauto.
    - destruct (decide (l ∈ seen)) as [Hin|Hnin].
      + destruct (IH seen Hnd) as [Hout Hmem]. split; [done|].
        intros x. rewrite Hmem, elem_of_cons.
        split; [tauto|]. intros [?|[->|?]]; tauto.
      + destruct (IH (seen ++ [l])) as [Hout Hmem].
        { apply NoDup_app. split; [done|]. split; [|apply NoDup_singleton].
          by intros x Hx ->%list_elem_of_singleton. }
        split; [done|]. intros x.
        rewrite Hmem, elem_of_app, list_elem_of_singleton, elem_of_cons.
        tauto. }
  destruct (Hfold [] (NoDup_nil_2 (A:=string))) as [Hnd Hmem]. split; [done|].
  intros x. rewrite Hmem, elem_of_nil. tauto.
Qed.

(** C1, amended.  Let [C], [P] and [Q] be the numbers of distinct column
    labels of the confound, physio and physio-confound tables and [S] the
    number of spike files.  On every composition [plot] returns and draws on
    a one-column grid of [C + S + P + Q + 1] rows, which it fills from the top
    in this order: the arrays of the spike files in list order, one confound
    per distinct label in the order of the first occurrences, likewise the
    physio signals, likewise the physio confounds, and the carpet.  For a
    table whose labels are distinct this is one row per column, in column
    order. *)
Theorem plot_rows_in_fixed_order args obj figure :
  __init__ read_csv loadtxt args = Ok obj →
  ∃ table arrays,
    resolve_confounds read_csv args = Ok table
    ∧ Forall2 (λ f a, loadtxt f = Ok a)
        (default [] (arg_spikes_files args)) arrays
    ∧ let confound_names := first_occurrences (table_columns table) in
      let physio_names :=
        first_occurrences (table_columns (arg_physio args)) in
      let physio_confound_names :=
        first_occurrences (table_columns (arg_physio_confounds args)) in
      let C := length confound_names in
      let S := length (default [] (arg_spikes_files args)) in
      let P := length physio_names in
      let Q := length physio_confound_names in
      let log := calls (plot color_palette obj figure).2 in
      (plot color_palette obj figure).1 = Ok (default CurrentFigure figure)
      ∧ Forall (λ gs, nrows (gridspec gs) = C + S + P + Q + 1
                      ∧ ncols (gridspec gs) = 1)
          (omap event_cell log)
      ∧ omap event_panel log
        = zip (seq 0 (C + S + P + Q + 1))
            ((SpikePanel <$> arrays)
             ++ (TracePanel <$> confound_names)
             ++ (TracePanel <$> physio_names)
             ++ (TracePanel <$> physio_confound_names)
             ++ [CarpetPanel])
      ∧ (NoDup (table_columns table) → confound_names = table_columns table)
      ∧ (NoDup (table_columns (arg_physio args)) →
         physio_names = table_columns (arg_physio args))
      ∧ (NoDup (table_columns (arg_physio_confounds args)) →
         physio_confound_names = table_columns (arg_physio_confounds args))
      ∧ (NoDup confound_names
         ∧ ∀ x, x ∈ confound_names ↔ x ∈ table_columns table)
      ∧ (NoDup physio_names
         ∧ ∀ x, x ∈ physio_names ↔ x ∈ table_columns (arg_physio args))
      ∧ (NoDup physio_confound_names
         ∧ ∀ x, x ∈ physio_confound_names
                ↔ x ∈ table_columns (arg_physio_confounds args)).
Proof.
  intros Hinit.
  pose proof Hinit
    as (table & arrays & Htable & Hloads & Hc & Hp & Hq & Hs & _)%init_inv.
  exists table, arrays. split; [done|]. split; [done|].
  intros confound_names physio_names physio_confound_names C S P Q log.
  unfold log.
  rewrite (run_init read_csv loadtxt color_palette color_palette_length
             args obj figure Hinit).
  cbn [fst snd calls].
  assert (PyDict.keys (confounds obj) = confound_names) as HkC
    by (rewrite Hc; apply keys_fill_first_occurrences).
  assert (PyDict.keys (physio obj) = physio_names) as HkP
    by (rewrite Hp; apply keys_fill_first_occurrences).
  assert (PyDict.keys (physio_confounds obj) = physio_confound_names) as HkQ
    by (rewrite Hq; apply keys_fill_first_occurrences).
  assert (length (confounds obj) = C) as HlC
    by (by rewrite <- length_keys, HkC).
  assert (length (physio obj) = P) as HlP
    by (by rewrite <- length_keys, HkP).
  assert (length (physio_confounds obj) = Q) as HlQ
    by (by rewrite <- length_keys, HkQ).
  assert (length (spikes obj) = S) as HlS.
  { rewrite Hs, length_fmap. symmetry. by eapply Forall2_length. }
  split; [done|]. split; [|split].
  - eapply Forall_impl; [apply cells_plot_calls|].
    intros gs ->. cbn [grid_of nrows ncols].
    rewrite HlC, HlP, HlQ, HlS. split; [lia|done].
  - rewrite panels_plot_calls by apply color_palette_length.
    rewrite HlC, HlP, HlQ, HlS, HkC, HkP, HkQ. do 2 f_equal.
    rewrite Hs, <- !list_fmap_compose. by apply list_fmap_ext.
  - split; [apply first_occurrences_NoDup|].
    split; [apply first_occurrences_NoDup|].
    split; [apply first_occurrences_NoDup|].
    split; [apply first_occurrences_distinct|].
    split; apply first_occurrences_distinct.
Qed.

End Rows.

Lemma plot_rows_in_fixed_order_witness :
  omap event_panel (calls (plot Demo.husl Demo.obj None).2)
  = [(0, SpikePanel {| shape := [2; 2]; flat := [1; 2; 3; 4]%Z |});
     (1, TracePanel "FD"); (2, TracePanel "DVARS");
     (3, TracePanel "resp"); (4, TracePanel "HR_reg");
     (5, CarpetPanel)].
Proof.
  destruct (plot_rows_in_fixed_order Demo.read_csv Demo.loadtxt Demo.husl
              husl_length Demo.args Demo.obj None demo_init)
    as (table & arrays & Htable & Hloads & _ & _ & Hpanels & _).
  injection Htable as <-.
  apply Forall2_cons_inv_l in Hloads as (a & arrays' & Ha & Hnil & ->).
  apply Forall2_nil_inv_l in Hnil as ->.
  injection Ha as <-.
  exact Hpanels.
Defined.

(** C1 fails when [C] counts the columns of the table: a confound table with
    two columns under the one label ["a"] gives a single confound, and the
    figure has two rows, not three. *)
Lemma repeated_label_gives_one_row :
  length (table_columns (arg_confounds Demo.dup_args)) = 2
  ∧ ∃ obj,
      __init__ Demo.read_csv Demo.loadtxt Demo.dup_args = Ok obj
      ∧ omap event_panel (calls (plot Demo.husl obj None).2)
        = [(0, TracePanel "a"); (1, CarpetPanel)]
      ∧ ¬ Forall (λ gs, nrows (gridspec gs) = 2 + 0 + 0 + 0 + 1)
            (omap event_cell (calls (plot Demo.husl obj None).2)).
Proof.
  split; [reflexivity|]. eexists. split; [vm_compute; reflexivity|].
  split; [vm_compute; reflexivity|].
  intros HF. vm_compute in HF. apply Forall_inv in HF. discriminate HF.
Qed.
